(** * Chucky job node: request building, submission, completion polling

    A shallow embedding of [src/credentials/ChuckyApi.credentials.ts]
    (functions [createJob], [getJob], [cancelJob], [getHmacKey]) together
    with the properties of the job submission and completion-polling
    protocol.

    Conventions of the embedding.
    - A JavaScript string is the list of its UTF-16 code units ([jsstring]).
    - A JavaScript value ([Value]) is [undefined], [null], a boolean, a
      number, a string, an array or an object; an object is the list of its
      own properties in insertion order (the runtime's reordering of
      integer-like keys is left out: nothing here enumerates in order).
    - Numbers read from a JSON text are kept as the decimal [mant * 10^exp10]
      that the text denotes; the node's numeric parameters (seconds, counts,
      budgets) and the clock are whole numbers in [Z].
    - The asynchronous function [createJob] is a computation in a state and
      exception monad over a [World] (clock, counters, trace of the awaited
      operations); what the outside answers is scripted by an [Env]. *)

From Stdlib Require Import List ZArith NArith Lia Bool Ascii String.
From Stdlib.Strings Require Import Byte.
From Stdlib Require Import DecimalString.
Import ListNotations.

Local Open Scope Z_scope.

(* ================================================================= *)
(** ** Strings *)

(** A string is its sequence of UTF-16 code units. *)
Definition jsstring := list N.

(** An ASCII literal of the source text, as a [jsstring]. *)
Definition str (s : string) : jsstring :=
  List.map N_of_ascii (list_ascii_of_string s).

Fixpoint jsstring_eqb (a b : jsstring) : bool :=
  match a, b with
  | [], [] => true
  | x :: a', y :: b' => N.eqb x y && jsstring_eqb a' b'
  | _, _ => false
  end.

(** [String.prototype.trim]: the code units of WhiteSpace and
    LineTerminator (ECMA-262, 12.2 and 12.3). *)
Definition isWhiteSpace (c : N) : bool :=
  ((9 <=? c) && (c <=? 13) || (c =? 32) || (c =? 160) || (c =? 5760)
   || (8192 <=? c) && (c <=? 8202) || (c =? 8232) || (c =? 8233)
   || (c =? 8239) || (c =? 8287) || (c =? 12288) || (c =? 65279))%N.

Fixpoint trimStart (s : jsstring) : jsstring :=
  match s with
  | c :: r => if isWhiteSpace c then trimStart r else s
  | [] => []
  end.

Definition trim (s : jsstring) : jsstring :=
  rev (trimStart (rev (trimStart s))).

(** [s.split(',')]: the segments between the separators, an empty string
    giving the one empty segment. *)
Fixpoint splitOn (sep : N) (s : jsstring) : list jsstring :=
  match s with
  | [] => [[]]
  | c :: r =>
      if N.eqb c sep then [] :: splitOn sep r
      else match splitOn sep r with
           | seg :: segs => (c :: seg) :: segs
           | [] => [[c]]
           end
  end.

Definition comma : N := 44%N.

(** [s.split(',').map((t) => t.trim())] *)
Definition splitTrim (s : jsstring) : list jsstring :=
  List.map trim (splitOn comma s).

(** Template-literal conversion of a whole number (plain decimal, which is
    what the runtime prints for magnitudes below 10^21). *)
Definition numberToString (z : Z) : jsstring :=
  str (NilZero.string_of_int (Z.to_int z)).

(** [buf.toString('hex')]: two lowercase hexadecimal digits per byte. *)
Definition hexDigit (n : N) : N :=
  (if n <? 10 then 48 + n else 87 + n)%N.

Definition hexByte (b : byte) : jsstring :=
  let n := Byte.to_N b in [hexDigit (n / 16); hexDigit (n mod 16)]%N.

Definition toHex (bs : list byte) : jsstring :=
  List.concat (List.map hexByte bs).

(* ================================================================= *)
(** ** Values *)

(** The decimal number [mant * 10^exp10]. *)
Record Number := mkNumber { mant : Z; exp10 : Z }.

Definition ofZ (z : Z) : Number := mkNumber z 0.

#[warnings="-register-all"]
Inductive Value :=
| VUndefined
| VNull
| VBool (b : bool)
| VNum (n : Number)
| VStr (s : jsstring)
| VArr (items : list Value)
| VObj (fields : list (jsstring * Value)).

Definition Obj := list (jsstring * Value).

(** Own-property lookup. *)
Fixpoint lookup (k : jsstring) (o : Obj) : option Value :=
  match o with
  | [] => None
  | (k', v) :: o' => if jsstring_eqb k k' then Some v else lookup k o'
  end.

Definition hasKey (k : jsstring) (o : Obj) : bool :=
  match lookup k o with Some _ => true | None => false end.

(** [o[k] = v]: an existing property keeps its place, a new one goes last. *)
Fixpoint setProp (k : jsstring) (v : Value) (o : Obj) : Obj :=
  match o with
  | [] => [(k, v)]
  | (k', v') :: o' =>
      if jsstring_eqb k k' then (k', v) :: o' else (k', v') :: setProp k v o'
  end.

(** ToBoolean. *)
Definition truthy (v : Value) : bool :=
  match v with
  | VUndefined | VNull => false
  | VBool b => b
  | VNum n => negb (mant n =? 0)
  | VStr s => match s with [] => false | _ => true end
  | VArr _ | VObj _ => true
  end.

Inductive TypeOf := TUndefined | TObject | TBoolean | TNumber | TString.

Definition typeof (v : Value) : TypeOf :=
  match v with
  | VUndefined => TUndefined
  | VNull | VArr _ | VObj _ => TObject
  | VBool _ => TBoolean
  | VNum _ => TNumber
  | VStr _ => TString
  end.

(** [Object.keys(v).length] for the values it is applied to. *)
Definition keysLength (v : Value) : nat :=
  match v with
  | VObj fs => List.length fs
  | VArr xs => List.length xs
  | VStr s => List.length s
  | _ => 0%nat
  end.

(** Truthiness of the optional parameters: [x || d] and [x && ...]. *)
Definition truthyStr (o : option jsstring) : bool :=
  match o with Some (_ :: _) => true | _ => false end.

(** [x || d] on an optional string and on an optional number. *)
Definition orStr (o : option jsstring) (d : jsstring) : jsstring :=
  match o with Some (c :: r) => c :: r | _ => d end.

Definition orNum (o : option Z) (d : Z) : Z :=
  match o with Some z => if z =? 0 then d else z | None => d end.

Definition optStr (o : option jsstring) : Value :=
  match o with Some s => VStr s | None => VUndefined end.

(* ================================================================= *)
(** ** JSON.parse *)

(** The runtime's [JSON.parse], following the JSON grammar of ECMA-404:
    [Some v] is the decoded value, [None] the thrown [SyntaxError]. *)
Module JSON.

(** JSON white space: space, tab, line feed, carriage return. *)
Definition ws (c : N) : bool :=
  ((c =? 32) || (c =? 9) || (c =? 10) || (c =? 13))%N.

Fixpoint skip_ws (s : jsstring) : jsstring :=
  match s with
  | c :: r => if ws c then skip_ws r else s
  | [] => []
  end.

Definition isDigit (c : N) : bool := ((48 <=? c) && (c <=? 57))%N.

Definition hexVal (c : N) : option N :=
  (if (48 <=? c) && (c <=? 57) then Some (c - 48)
   else if (97 <=? c) && (c <=? 102) then Some (c - 87)
   else if (65 <=? c) && (c <=? 70) then Some (c - 55)
   else None)%N.

Definition hex4 (a b c d : N) : option N :=
  match hexVal a, hexVal b, hexVal c, hexVal d with
  | Some a, Some b, Some c, Some d => Some (((a * 16 + b) * 16 + c) * 16 + d)%N
  | _, _, _, _ => None
  end.

(** The character after a backslash, other than [u]. *)
Definition escape (c : N) : option N :=
  (if c =? 34 then Some 34 else if c =? 92 then Some 92
   else if c =? 47 then Some 47 else if c =? 98 then Some 8
   else if c =? 102 then Some 12 else if c =? 110 then Some 10
   else if c =? 114 then Some 13 else if c =? 116 then Some 9
   else None)%N.

(** The characters of a string literal, after its opening quote. *)
Fixpoint chars (s acc : jsstring) : option (jsstring * jsstring) :=
  match s with
  | [] => None
  | c :: r =>
      if (c =? 34)%N then Some (rev acc, r)
      else if (c =? 92)%N then
        match r with
        | [] => None
        | e :: r1 =>
            if (e =? 117)%N then
              match r1 with
              | h1 :: h2 :: h3 :: h4 :: r2 =>
                  match hex4 h1 h2 h3 h4 with
                  | Some u => chars r2 (u :: acc)
                  | None => None
                  end
              | _ => None
              end
            else match escape e with
                 | Some u => chars r1 (u :: acc)
                 | None => None
                 end
        end
      else if (c <? 32)%N then None
      else chars r (c :: acc)
  end.

(** A run of digits: its value appended to [acc], how many, the rest. *)
Fixpoint digits (s : jsstring) (acc : Z) (n : Z) : Z * Z * jsstring :=
  match s with
  | c :: r =>
      if isDigit c then digits r (acc * 10 + Z.of_N (c - 48)) (n + 1)
      else (acc, n, s)
  | [] => (acc, n, s)
  end.

(** The integer part: a lone [0], or a nonzero digit and more digits. *)
Definition intPart (s : jsstring) : option (Z * jsstring) :=
  match s with
  | [] => None
  | c :: r =>
      if negb (isDigit c) then None
      else if (c =? 48)%N then Some (0, r)
      else let '(v, _, r') := digits r (Z.of_N (c - 48)) 0 in Some (v, r')
  end.

(** The optional fraction after the integer part [i]: the digits joined
    to those of [i], and how many they are. *)
Definition fracPart (i : Z) (s : jsstring) : option (Z * Z * jsstring) :=
  match s with
  | d :: r =>
      if (d =? 46)%N then
        let '(v, n, r') := digits r i 0 in
        if n =? 0 then None else Some (v, n, r')
      else Some (i, 0, s)
  | [] => Some (i, 0, s)
  end.

(** The optional sign of an exponent. *)
Definition sign (s : jsstring) : Z * jsstring :=
  match s with
  | p :: r =>
      if (p =? 43)%N then (1, r)
      else if (p =? 45)%N then (-1, r) else (1, s)
  | [] => (1, s)
  end.

(** The optional exponent. *)
Definition expPart (s : jsstring) : option (Z * jsstring) :=
  match s with
  | e :: r =>
      if ((e =? 101) || (e =? 69))%N then
        let '(sgn, r1) := sign r in
        let '(x, n, r2) := digits r1 0 0 in
        if n =? 0 then None else Some (sgn * x, r2)
      else Some (0, s)
  | [] => Some (0, s)
  end.

(** [int frac? exp?] after the optional minus sign. *)
Definition unsignedNumber (s : jsstring) : option (Number * jsstring) :=
  match intPart s with
  | Some (i, r1) =>
      match fracPart i r1 with
      | Some (m, fl, r2) =>
          match expPart r2 with
          | Some (x, r3) => Some (mkNumber m (x - fl), r3)
          | None => None
          end
      | None => None
      end
  | None => None
  end.

Definition negate (n : Number) : Number := mkNumber (- mant n) (exp10 n).

(** [prefix lit s]: [s] without its prefix [lit]. *)
Fixpoint prefix (lit s : jsstring) : option jsstring :=
  match lit, s with
  | [], _ => Some s
  | a :: lit', b :: s' => if (a =? b)%N then prefix lit' s' else None
  | _ :: _, [] => None
  end.

(** One value, then the elements of an array after its first bracket or
    a comma, then the members of an object likewise. Every call consumes
    input, so fuel above twice the length of the text is never used up
    ([JSON_parse_fuel_enough]). *)
Fixpoint value (fuel : nat) (s : jsstring) {struct fuel}
  : option (Value * jsstring) :=
  match fuel with
  | O => None
  | S f =>
      match skip_ws s with
      | [] => None
      | c :: r =>
          if (c =? 123)%N then
            match skip_ws r with
            | d :: r' => if (d =? 125)%N then Some (VObj [], r')
                         else members f (skip_ws r) []
            | [] => None
            end
          else if (c =? 91)%N then
            match skip_ws r with
            | d :: r' => if (d =? 93)%N then Some (VArr [], r')
                         else elements f (skip_ws r) []
            | [] => None
            end
          else if (c =? 34)%N then
            match chars r [] with
            | Some (t, r') => Some (VStr t, r')
            | None => None
            end
          else if (c =? 45)%N then
            match unsignedNumber r with
            | Some (n, r') => Some (VNum (negate n), r')
            | None => None
            end
          else if isDigit c then
            match unsignedNumber (c :: r) with
            | Some (n, r') => Some (VNum n, r')
            | None => None
            end
          else
            match prefix (str "true") (c :: r) with
            | Some r' => Some (VBool true, r')
            | None =>
                match prefix (str "false") (c :: r) with
                | Some r' => Some (VBool false, r')
                | None =>
                    match prefix (str "null") (c :: r) with
                    | Some r' => Some (VNull, r')
                    | None => None
                    end
                end
            end
      end
  end
with elements (fuel : nat) (s : jsstring) (acc : list Value) {struct fuel}
  : option (Value * jsstring) :=
  match fuel with
  | O => None
  | S f =>
      match value f s with
      | Some (v, r) =>
          match skip_ws r with
          | c :: r' =>
              if (c =? 44)%N then elements f r' (v :: acc)
              else if (c =? 93)%N then Some (VArr (rev (v :: acc)), r')
              else None
          | [] => None
          end
      | None => None
      end
  end
with members (fuel : nat) (s : jsstring) (acc : Obj) {struct fuel}
  : option (Value * jsstring) :=
  match fuel with
  | O => None
  | S f =>
      match skip_ws s with
      | q :: r =>
          if negb (q =? 34)%N then None else
          match chars r [] with
          | Some (k, r1) =>
              match skip_ws r1 with
              | c :: r2 =>
                  if negb (c =? 58)%N then None else
                  match value f r2 with
                  | Some (v, r3) =>
                      match skip_ws r3 with
                      | d :: r4 =>
                          if (d =? 44)%N then members f r4 (setProp k v acc)
                          else if (d =? 125)%N
                               then Some (VObj (setProp k v acc), r4)
                               else None
                      | [] => None
                      end
                  | None => None
                  end
              | [] => None
              end
          | None => None
          end
      | [] => None
      end
  end.

(** [JSON.parse(text)]: one value between optional white space. *)
Definition parse (text : jsstring) : option Value :=
  match value (2 * List.length text + 2) text with
  | Some (v, r) => match skip_ws r with [] => Some v | _ => None end
  | None => None
  end.

End JSON.

(* ================================================================= *)
(** ** Data model *)

(** [interface IncubateResponse] *)
Module IncubateResponse.
Record t := mk {
  vesselId : jsstring;
  idempotencyKey : jsstring;
  status : jsstring;
  scheduledFor : option jsstring;
  error : option jsstring;
  message : option jsstring
}.
End IncubateResponse.

(** [interface SDKResult]; an absent [structured_output] is [VUndefined]. *)
Module SDKResult.
Inductive Subtype :=
| success
| error_max_turns
| error_during_execution
| error_max_budget_usd
| error_max_structured_output_retries.

Definition subtypeName (s : Subtype) : jsstring :=
  match s with
  | success => str "success"
  | error_max_turns => str "error_max_turns"
  | error_during_execution => str "error_during_execution"
  | error_max_budget_usd => str "error_max_budget_usd"
  | error_max_structured_output_retries =>
      str "error_max_structured_output_retries"
  end.

Record Usage := mkUsage { input_tokens : Z; output_tokens : Z }.

Record t := mk {
  subtype : Subtype;
  result : option jsstring;
  structured_output : Value;
  total_cost_usd : option Number;
  usage : option Usage
}.
End SDKResult.

(** [interface IncubateOutput] *)
Module IncubateOutput.
Record t := mk {
  success : bool;
  text : option jsstring;
  result : option SDKResult.t;
  error : option jsstring
}.
End IncubateOutput.

(** [interface Job] *)
Module Job.
Record JobError := mkError { message : jsstring; name : option jsstring }.

Record t := mk {
  id : jsstring;
  status : jsstring;
  taskIdentifier : jsstring;
  createdAt : jsstring;
  updatedAt : jsstring;
  startedAt : option jsstring;
  finishedAt : option jsstring;
  isCompleted : bool;
  isSuccess : bool;
  isFailed : bool;
  output : option IncubateOutput.t;
  error : option JobError
}.
End Job.

(** The typed records as the objects they are at run time: an optional
    member that is absent is no property of the object. *)
Definition optField (k : string) (o : option Value) : Obj :=
  match o with Some v => [(str k, v)] | None => [] end.

Definition definedField (k : string) (v : Value) : Obj :=
  match v with VUndefined => [] | _ => [(str k, v)] end.

Definition usageValue (u : SDKResult.Usage) : Value :=
  VObj [(str "input_tokens", VNum (ofZ (SDKResult.input_tokens u)));
        (str "output_tokens", VNum (ofZ (SDKResult.output_tokens u)))].

Definition optUsage (o : option SDKResult.Usage) : Value :=
  match o with Some u => usageValue u | None => VUndefined end.

Definition optNumber (o : option Number) : Value :=
  match o with Some n => VNum n | None => VUndefined end.

Definition sdkResultValue (r : SDKResult.t) : Value :=
  VObj ([(str "type", VStr (str "result"));
         (str "subtype", VStr (SDKResult.subtypeName (SDKResult.subtype r)))]
        ++ optField "result" (option_map VStr (SDKResult.result r))
        ++ definedField "structured_output" (SDKResult.structured_output r)
        ++ optField "total_cost_usd" (option_map VNum (SDKResult.total_cost_usd r))
        ++ optField "usage" (option_map usageValue (SDKResult.usage r))).

Definition outputValue (o : IncubateOutput.t) : Value :=
  VObj ([(str "success", VBool (IncubateOutput.success o))]
        ++ optField "text" (option_map VStr (IncubateOutput.text o))
        ++ optField "result" (option_map sdkResultValue (IncubateOutput.result o))
        ++ optField "error" (option_map VStr (IncubateOutput.error o))).

(** The values [getNodeParameter] returns for one input item. *)
Record PollingOptions := mkPollingOptions {
  pollingInterval : option Z;
  timeout : option Z
}.

Record ModelOptions := mkModelOptions {
  model : option jsstring;
  customModel : option jsstring;
  systemPrompt : option jsstring;
  maxTurns : option Z;
  outputFormat : Value   (* a string or an object; [VUndefined] when unset *)
}.

Record ToolOptions := mkToolOptions {
  tools : option jsstring;
  allowedTools : option jsstring;
  disallowedTools : option jsstring;
  permissionMode : option jsstring
}.

Record CallbackOptions := mkCallbackOptions {
  callbackUrl : option jsstring;
  callbackSecret : option jsstring
}.

Record AdvancedOptions := mkAdvancedOptions {
  userId : option jsstring;
  idempotencyKey : option jsstring;
  ttl : option Z;
  aiBudget : option Z;
  computeBudget : option Z
}.

Record Params := mkParams {
  projectId : jsstring;
  message : jsstring;
  waitForCompletion : bool;
  pollingOptions : PollingOptions;
  modelOptions : ModelOptions;
  toolOptions : ToolOptions;
  callbackOptions : CallbackOptions;
  advancedOptions : AdvancedOptions
}.

(** The arguments of the SDK's [createBudget] and [createToken]. *)
Record Budget := mkBudget {
  aiDollars : Z;
  computeHours : Z;
  window : jsstring
}.

Record TokenOptions := mkTokenOptions {
  tokenUserId : jsstring;
  tokenProjectId : jsstring;
  secret : jsstring;
  expiresIn : Z;
  budget : Budget
}.

Definition PORTAL_URL : jsstring := str "https://doting-hornet-490.convex.site".
Definition WORKER_URL : jsstring := str "https://conjure.chucky.cloud".

(* ================================================================= *)
(** ** Job request builder (the pure part of [createJob]) *)

(** [...(c && { fields })]: the fields when [c] is truthy, nothing when it
    is one of the falsy values [undefined], [0], [''] or [false]. *)
Definition spreadIf (c : bool) (fs : Obj) : Obj := if c then fs else [].

(** The same for an optional string and an optional number, whose falsy
    values are the empty string and zero. *)
Definition spreadStr (o : option jsstring) (fs : jsstring -> Obj) : Obj :=
  match o with Some (c :: r) => fs (c :: r) | _ => [] end.

Definition spreadNum (o : option Z) (fs : Z -> Obj) : Obj :=
  match o with Some n => if n =? 0 then [] else fs n | None => [] end.

Definition isUndefined (v : Value) : bool :=
  match v with VUndefined => true | _ => false end.

Definition isObject (v : Value) : bool :=
  match typeof v with TObject => true | _ => false end.

Definition strings (l : list jsstring) : Value := VArr (List.map VStr l).

(** [advancedOptions.idempotencyKey ||
     `n8n-${Date.now()}-${crypto.randomBytes(4).toString('hex')}`];
    the clock and the random bytes are read only when no key is given. *)
Definition generatedKey (now : Z) (bytes : list byte) : jsstring :=
  str "n8n-" ++ numberToString now ++ str "-" ++ toHex bytes.

(** [// Determine model] *)
Definition selectModel (m : ModelOptions) : jsstring :=
  let chosen := orStr (model m) (str "claude-sonnet-4-5-20250929") in
  if jsstring_eqb chosen (str "custom") then
    match customModel m with
    | Some (c :: r) => c :: r
    | _ => chosen
    end
  else chosen.

(** [// Parse tools option] *)
Definition toolsValue (t : ToolOptions) : Value :=
  match tools t with
  | Some (c :: r) =>
      match JSON.parse (c :: r) with
      | Some v => v
      | None => strings (splitTrim (c :: r))
      end
  | _ => VUndefined
  end.

(** [// Parse outputFormat - n8n JSON field may return string or object] *)
Definition parsedOutputFormat (m : ModelOptions) : Value :=
  if truthy (outputFormat m) then
    match outputFormat m with
    | VStr s =>
        match JSON.parse s with
        | Some parsed =>
            if truthy parsed && isObject parsed then parsed else VUndefined
        | None => VUndefined
        end
    | v => if isObject v then v else VUndefined
    end
  else VUndefined.

(** The [options] member of the request body. *)
Definition requestOptions (p : Params) (token : jsstring) : Obj :=
  let m := modelOptions p in
  let t := toolOptions p in
  [(str "token", VStr token); (str "model", VStr (selectModel m))]
  ++ spreadStr (systemPrompt m) (fun s => [(str "systemPrompt", VStr s)])
  ++ spreadNum (maxTurns m) (fun n => [(str "maxTurns", VNum (ofZ n))])
  ++ spreadIf (truthy (parsedOutputFormat m)
               && (0 <? keysLength (parsedOutputFormat m))%nat)
       [(str "outputFormat",
          VObj [(str "type", VStr (str "json_schema"));
                (str "schema", parsedOutputFormat m)])]
  ++ spreadIf (negb (isUndefined (toolsValue t)))
       [(str "tools", toolsValue t)]
  ++ spreadStr (allowedTools t)
       (fun s => [(str "allowedTools", strings (splitTrim s))])
  ++ spreadStr (disallowedTools t)
       (fun s => [(str "disallowedTools", strings (splitTrim s))])
  ++ spreadStr (permissionMode t)
       (fun mode =>
          spreadIf (negb (jsstring_eqb mode (str "default")))
            [(str "permissionMode", VStr mode);
             (str "allowDangerouslySkipPermissions",
               VBool (jsstring_eqb mode (str "bypassPermissions")))]).

(** [// Build request body], with the [ttl] and [callback] members that
    are assigned afterwards. *)
Definition requestBody (p : Params) (token key : jsstring) : Obj :=
  let a := advancedOptions p in
  let c := callbackOptions p in
  let body :=
    [(str "message", VStr (message p));
     (str "idempotencyKey", VStr key);
     (str "options", VObj (requestOptions p token))] in
  let body :=
    match ttl a with
    | Some n =>
        if negb (n =? 0) && (0 <? n)
        then setProp (str "ttl") (VNum (ofZ n)) body
        else body
    | None => body
    end in
  match callbackUrl c with
  | Some (u :: rl) =>
      setProp (str "callback")
        (VObj ([(str "url", VStr (u :: rl))]
               ++ spreadStr (callbackSecret c)
                    (fun s => [(str "secret", VStr s)])))
        body
  | _ => body
  end.

(** The member [k] of the [options] object of a request body. *)
Definition optionOf (k : string) (body : Obj) : option Value :=
  match lookup (str "options") body with
  | Some (VObj o) => lookup (str k) o
  | _ => None
  end.

(* ================================================================= *)
(** ** Result normalizer (the block under [if (job.isCompleted)]) *)

Definition flatten (job : Job.t) : Obj :=
  let result :=
    [(str "jobId", VStr (Job.id job));
     (str "status", VStr (Job.status job));
     (str "isSuccess", VBool (Job.isSuccess job));
     (str "isFailed", VBool (Job.isFailed job));
     (str "createdAt", VStr (Job.createdAt job));
     (str "updatedAt", VStr (Job.updatedAt job));
     (str "startedAt", optStr (Job.startedAt job));
     (str "finishedAt", optStr (Job.finishedAt job))] in
  let result :=
    match Job.output job with
    | Some output =>
        let result :=
          setProp (str "success") (VBool (IncubateOutput.success output)) result in
        let result :=
          setProp (str "text") (optStr (IncubateOutput.text output)) result in
        let result :=
          setProp (str "error") (optStr (IncubateOutput.error output)) result in
        match IncubateOutput.result output with
        | Some r =>
            let result :=
              setProp (str "resultSubtype")
                (VStr (SDKResult.subtypeName (SDKResult.subtype r))) result in
            let result :=
              setProp (str "resultText") (optStr (SDKResult.result r)) result in
            let result :=
              setProp (str "totalCostUsd")
                (optNumber (SDKResult.total_cost_usd r)) result in
            let result :=
              setProp (str "usage") (optUsage (SDKResult.usage r)) result in
            if negb (isUndefined (SDKResult.structured_output r))
            then setProp (str "structuredOutput")
                   (SDKResult.structured_output r) result
            else result
        | None => result
        end
    | None => result
    end in
  setProp (str "rawOutput")
    (match Job.output job with
     | Some output => outputValue output
     | None => VUndefined
     end)
    result.

(* ================================================================= *)
(** ** The outside world *)

(** What [helpers.request] resolves to, or the failure it rejects with
    (network error, non-2xx status). *)
Inductive Reply (A : Type) :=
| Resolved (a : A)
| Rejected (reason : jsstring).
Arguments Resolved {A} a.
Arguments Rejected {A} reason.

(** An HTTP request as passed to [helpers.request] (always [json: true]). *)
Record Request := mkRequest {
  method : jsstring;
  url : jsstring;
  headers : list (jsstring * jsstring);
  body : Value
}.

(** The operations [createJob] and its helpers await. *)
Inductive Event :=
| Requested (r : Request)
| Slept (ms : Z).

(** The scripted surroundings of one run: the replies of the portal and of
    the execution endpoint, the SDK's token routine, the random source, and
    how long each awaited operation takes on the wall clock. *)
Record Env := mkEnv {
  hmacKeyReply : Reply jsstring;            (* POST /api/projects/hmac-key *)
  createToken : TokenOptions -> jsstring;   (* @chucky.cloud/sdk *)
  randomBytes : nat -> list byte;           (* crypto.randomBytes(n) *)
  incubateReply : Reply IncubateResponse.t; (* POST /incubate *)
  jobReply : nat -> Reply Job.t;            (* the k-th POST /api/jobs/get *)
  cancelReply : Reply Value;                (* POST /api/jobs/cancel *)
  callTime : Request -> Z;                  (* duration of a one-off request *)
  fetchTime : nat -> Z;                     (* duration of the k-th fetch *)
  sleepTime : nat -> Z -> Z                 (* k-th timer, asked delay *)
}.

Record World := mkWorld {
  now : Z;                (* [Date.now()], milliseconds *)
  fetches : nat;          (* status fetches issued so far *)
  sleeps : nat;           (* timers awaited so far *)
  trace : list Event      (* awaited operations, oldest first *)
}.

Inductive Error :=
| NodeOperationError (message : jsstring)
| RequestError (reason : jsstring).

Inductive Outcome (A : Type) :=
| Returned (a : A)
| Thrown (e : Error)
| OutOfFuel.
Arguments Returned {A} a.
Arguments Thrown {A} e.
Arguments OutOfFuel {A}.

(** Computations over the world that return, throw, or are cut off. *)
Definition M (A : Type) := World -> Outcome A * World.

Definition ret {A} (a : A) : M A := fun w => (Returned a, w).

Definition throw {A} (e : Error) : M A := fun w => (Thrown e, w).

Definition bind {A B} (m : M A) (k : A -> M B) : M B :=
  fun w =>
    match m w with
    | (Returned a, w') => k a w'
    | (Thrown e, w') => (Thrown e, w')
    | (OutOfFuel, w') => (OutOfFuel, w')
    end.

Notation "x <- m ;; k" := (bind m (fun x => k))
  (at level 61, m at next level, right associativity).

Definition dateNow : M Z := fun w => (Returned (now w), w).

Definition settle {A} (r : Reply A) : M A :=
  match r with
  | Resolved a => ret a
  | Rejected reason => throw (RequestError reason)
  end.

Definition bearer (apiKey : jsstring) : list (jsstring * jsstring) :=
  [(str "Authorization", str "Bearer " ++ apiKey);
   (str "Content-Type", str "application/json")].

(* ================================================================= *)
(** ** The operations *)

Definition getJobRequest (jobId apiKey : jsstring) : Request :=
  mkRequest (str "POST") (PORTAL_URL ++ str "/api/jobs/get")
            (bearer apiKey) (VObj [(str "jobId", VStr jobId)]).

Definition cancelJobRequest (jobId apiKey : jsstring) : Request :=
  mkRequest (str "POST") (PORTAL_URL ++ str "/api/jobs/cancel")
            (bearer apiKey) (VObj [(str "jobId", VStr jobId)]).

Definition hmacKeyRequest (projectId apiKey : jsstring) : Request :=
  mkRequest (str "POST") (PORTAL_URL ++ str "/api/projects/hmac-key")
            (bearer apiKey) (VObj [(str "projectId", VStr projectId)]).

Definition incubateRequest (body : Obj) : Request :=
  mkRequest (str "POST") (WORKER_URL ++ str "/incubate") [] (VObj body).

(** The argument of [createToken]. *)
Definition tokenOptions (p : Params) (hmacSecret : jsstring) : TokenOptions :=
  let a := advancedOptions p in
  mkTokenOptions (orStr (userId a) (str "n8n-workflow")) (projectId p)
    hmacSecret 3600
    (mkBudget (orNum (aiBudget a) 10) (orNum (computeBudget a) 1) (str "day")).

(** [`Job ${data.vesselId} did not complete within
     ${pollingOptions.timeout || 600} seconds`] *)
Definition timeoutMessage (vesselId : jsstring) (o : PollingOptions)
  : jsstring :=
  str "Job " ++ vesselId ++ str " did not complete within "
  ++ numberToString (orNum (timeout o) 600) ++ str " seconds".

Section Operations.

Variable env : Env.

(** [await this.helpers.request(...)] for a one-off request. *)
Definition request {A} (r : Request) (reply : Reply A) : M A :=
  fun w =>
    settle reply
      (mkWorld (now w + callTime env r) (fetches w) (sleeps w)
               (trace w ++ [Requested r])).

(** [await new Promise((resolve) => setTimeout(resolve, ms))] *)
Definition sleep (ms : Z) : M unit :=
  fun w =>
    (Returned tt,
     mkWorld (now w + sleepTime env (sleeps w) ms) (fetches w)
             (S (sleeps w)) (trace w ++ [Slept ms])).

Definition getHmacKey (projectId apiKey : jsstring) : M jsstring :=
  request (hmacKeyRequest projectId apiKey) (hmacKeyReply env).

Definition getJob (jobId apiKey : jsstring) : M Job.t :=
  fun w =>
    settle (jobReply env (fetches w))
      (mkWorld (now w + fetchTime env (fetches w)) (S (fetches w))
               (sleeps w)
               (trace w ++ [Requested (getJobRequest jobId apiKey)])).

Definition cancelJob (jobId apiKey : jsstring) : M Obj :=
  _ <- request (cancelJobRequest jobId apiKey) (cancelReply env) ;;
  ret [(str "success", VBool true); (str "jobId", VStr jobId)].

(** [// Use custom idempotency key or generate one] *)
Definition chooseIdempotencyKey (p : Params) : M jsstring :=
  match idempotencyKey (advancedOptions p) with
  | Some (c :: r) => ret (c :: r)
  | _ => t <- dateNow ;; ret (generatedKey t (randomBytes env 4))
  end.

(** [createJob] up to the check of the execution endpoint's answer: the
    accepted submission, or the error thrown on the way. *)
Definition submit (p : Params) (apiKey : jsstring)
  : M IncubateResponse.t :=
  hmacSecret <- getHmacKey (projectId p) apiKey ;;
  let token := createToken env (tokenOptions p hmacSecret) in
  key <- chooseIdempotencyKey p ;;
  let body := requestBody p token key in
  data <- request (incubateRequest body) (incubateReply env) ;;
  if truthyStr (IncubateResponse.error data)
     || truthyStr (IncubateResponse.message data)
  then
    throw (NodeOperationError
             (orStr (IncubateResponse.message data)
                (orStr (IncubateResponse.error data)
                   (str "Failed to create job"))))
  else ret data.

(** [while (Date.now() - startTime < timeout) { ... }]: [Some result]
    when the loop is left by its [return], [None] when its condition
    fails; [fuel] bounds the number of iterations. *)
Fixpoint poll (fuel : nat) (vesselId apiKey : jsstring)
         (pollingInterval timeout startTime : Z) : M (option Obj) :=
  match fuel with
  | O => fun w => (OutOfFuel, w)
  | S fuel' =>
      t <- dateNow ;;
      if t - startTime <? timeout then
        job <- getJob vesselId apiKey ;;
        if Job.isCompleted job then ret (Some (flatten job))
        else
          _ <- sleep pollingInterval ;;
          poll fuel' vesselId apiKey pollingInterval timeout startTime
      else ret None
  end.

(** [createJob], on the parameters [p] of the input item. *)
Definition createJob (fuel : nat) (p : Params) (apiKey : jsstring)
  : M Obj :=
  data <- submit p apiKey ;;
  if negb (waitForCompletion p) then
    ret [(str "jobId", VStr (IncubateResponse.vesselId data));
         (str "idempotencyKey", VStr (IncubateResponse.idempotencyKey data));
         (str "status", VStr (IncubateResponse.status data));
         (str "scheduledFor", optStr (IncubateResponse.scheduledFor data))]
  else
    let pollingInterval :=
      orNum (pollingInterval (pollingOptions p)) 5 * 1000 in
    let timeout := orNum (timeout (pollingOptions p)) 600 * 1000 in
    startTime <- dateNow ;;
    finished <- poll fuel (IncubateResponse.vesselId data) apiKey
                  pollingInterval timeout startTime ;;
    match finished with
    | Some result => ret result
    | None =>
        throw (NodeOperationError
                 (timeoutMessage (IncubateResponse.vesselId data)
                                 (pollingOptions p)))
    end.

End Operations.

(** The world before a run: the clock reads [t0], nothing was awaited. *)
Definition initial (t0 : Z) : World := mkWorld t0 0 0 [].

(** The cancel requests of a trace. *)
Definition isCancel (e : Event) : bool :=
  match e with
  | Requested r => jsstring_eqb (url r) (PORTAL_URL ++ str "/api/jobs/cancel")
  | Slept _ => false
  end.

(** The trace of [n] polls that found the job unfinished. *)
Fixpoint rounds (n : nat) (jobId apiKey : jsstring) (interval : Z)
  : list Event :=
  match n with
  | O => []
  | S n' =>
      rounds n' jobId apiKey interval
      ++ [Requested (getJobRequest jobId apiKey); Slept interval]
  end.

(** Wall-clock time from the start of polling to the [k]-th evaluation of
    the loop condition (counted from 0), polling from a fresh world. *)
Fixpoint elapsed (env : Env) (interval : Z) (k : nat) : Z :=
  match k with
  | O => 0
  | S k' => elapsed env interval k' + fetchTime env k' + sleepTime env k' interval
  end.

(** Parameters with every option left unset. *)
Definition unset (projectId message : jsstring) (wait : bool) : Params :=
  mkParams projectId message wait
    (mkPollingOptions None None)
    (mkModelOptions None None None None VUndefined)
    (mkToolOptions None None None None)
    (mkCallbackOptions None None)
    (mkAdvancedOptions None None None None None).

Definition withPolling (o : PollingOptions) (p : Params) : Params :=
  mkParams (projectId p) (message p) (waitForCompletion p) o
    (modelOptions p) (toolOptions p) (callbackOptions p) (advancedOptions p).

Definition withModel (m : ModelOptions) (p : Params) : Params :=
  mkParams (projectId p) (message p) (waitForCompletion p) (pollingOptions p)
    m (toolOptions p) (callbackOptions p) (advancedOptions p).

Definition withTools (t : ToolOptions) (p : Params) : Params :=
  mkParams (projectId p) (message p) (waitForCompletion p) (pollingOptions p)
    (modelOptions p) t (callbackOptions p) (advancedOptions p).

Definition withAdvanced (a : AdvancedOptions) (p : Params) : Params :=
  mkParams (projectId p) (message p) (waitForCompletion p) (pollingOptions p)
    (modelOptions p) (toolOptions p) (callbackOptions p) a.

(** The world at the [k]-th evaluation of the loop condition, when
    polling began at [start] after the operations [before] and the [k]
    fetches so far all found the job unfinished. *)
Definition atRound (env : Env) (vesselId apiKey : jsstring)
           (interval start : Z) (before : list Event) (k : nat) : World :=
  mkWorld (start + elapsed env interval k) k k
          (before ++ rounds k vesselId apiKey interval).

(** The nested member [job.output.result.structured_output], [VUndefined]
    when a link of the chain is absent. *)
Definition structuredOutputOf (job : Job.t) : Value :=
  match Job.output job with
  | Some o =>
      match IncubateOutput.result o with
      | Some r => SDKResult.structured_output r
      | None => VUndefined
      end
  | None => VUndefined
  end.

(* ================================================================= *)
(** ** Sample values and surroundings *)

Definition accepted (vesselId : jsstring) : IncubateResponse.t :=
  IncubateResponse.mk vesselId (str "key-1") (str "PENDING") None None None.

Definition refused (error message : option jsstring) : IncubateResponse.t :=
  IncubateResponse.mk [] [] [] None error message.

Definition sampleResult (structured : Value) : SDKResult.t :=
  SDKResult.mk SDKResult.success (Some (str "done")) structured
    (Some (mkNumber 12 (-3))) (Some (SDKResult.mkUsage 10 20)).

Definition sampleJob (completed : bool) (output : option IncubateOutput.t)
  : Job.t :=
  Job.mk (str "job-1") (if completed then str "COMPLETED" else str "EXECUTING")
    (str "task") (str "2024-01-01T00:00:00Z") (str "2024-01-01T00:00:05Z")
    (Some (str "2024-01-01T00:00:01Z"))
    (if completed then Some (str "2024-01-01T00:00:05Z") else None)
    completed completed false output None.

(** Surroundings in which the portal hands out a signing secret, the
    execution endpoint answers [incubate], the [k]-th status fetch answers
    [jobs k], every request takes 100 ms and every timer exactly its delay. *)
Definition scripted (incubate : Reply IncubateResponse.t)
           (jobs : nat -> Reply Job.t) (bytes : list byte) : Env :=
  mkEnv (Resolved (str "hmac-secret")) (fun _ => str "signed-token")
        (fun _ => bytes) incubate jobs (Resolved VNull)
        (fun _ => 100) (fun _ => 100) (fun _ ms => Z.max ms 0).

Definition finishedOutput : IncubateOutput.t :=
  IncubateOutput.mk true (Some (str "done"))
    (Some (sampleResult (VObj [(str "name", VStr (str "x"))]))) None.

Definition finishedJob : Job.t := sampleJob true (Some finishedOutput).

(** A job source that is unfinished for the first [n] fetches. *)
Definition finishesAfter (n : nat) (k : nat) : Reply Job.t :=
  Resolved (if (n <=? k)%nat then finishedJob else sampleJob false None).

Definition neverFinishes (k : nat) : Reply Job.t :=
  Resolved (sampleJob false None).

(** A string literal of a JSON text: [s] between double quotes. *)
Definition quoted (s : string) : jsstring := 34%N :: str s ++ [34%N].

(** The JSON text of the array of [Read] and [Write]. *)
Definition readWriteJson : jsstring :=
  str "[" ++ quoted "Read" ++ str ", " ++ quoted "Write" ++ str "]".

(** The tools parameter of the examples below. *)
Definition withToolsString (s : jsstring) : Params :=
  withTools (mkToolOptions (Some s) None None None)
            (unset (str "proj") (str "hello") true).

(** A schema object and its JSON text. *)
Definition nameSchema : Obj := [(str "type", VStr (str "object"))].

Definition nameSchemaJson : jsstring :=
  str "{" ++ quoted "type" ++ str ": " ++ quoted "object" ++ str "}".

Definition withOutputFormat (v : Value) : Params :=
  withModel (mkModelOptions None None None None v)
            (unset (str "proj") (str "hello") true).

(** The scenario of the specification: poll every second for at most
    three seconds. *)
Definition scenario : Params :=
  withPolling (mkPollingOptions (Some 1) (Some 3))
              (unset (str "proj") (str "hello") true).

Definition finishing : Env :=
  scripted (Resolved (accepted (str "job-1"))) (finishesAfter 2)
           [x01; x02; x03; x04].

Definition stalling : Env :=
  scripted (Resolved (accepted (str "job-1"))) neverFinishes
           [x01; x02; x03; x04].

(* ================================================================= *)
(** ** The other operations of the node *)

(** [interface Project] *)
Module Project.
Record t := mk {
  id : jsstring;
  name : jsstring;
  description : option jsstring;
  isActive : bool
}.
End Project.

(** [INodePropertyOptions], as [getProjects] fills it. *)
Module PropertyOptions.
Record t := mk {
  name : jsstring;
  value : jsstring;
  description : option jsstring
}.
End PropertyOptions.

(** The [listOptions] parameter of one input item. *)
Record ListOptions := mkListOptions {
  status : option jsstring;
  limit : option Z
}.

(** The parameters [execute] reads for one input item. *)
Module Item.
Record t := mk {
  operation : jsstring;
  params : Params;            (* the parameters [createJob] reads *)
  jobId : jsstring;
  listOptions : ListOptions
}.
End Item.

(** [INodeExecutionData], as [execute] fills it. *)
Module NodeExecutionData.
Record t := mk {
  json : Value;
  pairedItem : option nat     (* [{ item: i }] *)
}.
End NodeExecutionData.

(** The surroundings of the whole node: those of [createJob], [getJob] and
    [cancelJob], and the replies to the two remaining portal calls. A reply
    to [GET /api/projects] that lacks its [projects] member is [None]. *)
Record Portal := mkPortal {
  operations : Env;
  listReply : Reply Value;                            (* POST /api/jobs/list *)
  projectsReply : Reply (option (list Project.t))     (* GET /api/projects *)
}.

(** A [Job] as the object it is at run time. *)
Definition jobErrorValue (e : Job.JobError) : Value :=
  VObj ([(str "message", VStr (Job.message e))]
        ++ optField "name" (option_map VStr (Job.name e))).

Definition jobValue (job : Job.t) : Value :=
  VObj ([(str "id", VStr (Job.id job));
         (str "status", VStr (Job.status job));
         (str "taskIdentifier", VStr (Job.taskIdentifier job));
         (str "createdAt", VStr (Job.createdAt job));
         (str "updatedAt", VStr (Job.updatedAt job))]
        ++ optField "startedAt" (option_map VStr (Job.startedAt job))
        ++ optField "finishedAt" (option_map VStr (Job.finishedAt job))
        ++ [(str "isCompleted", VBool (Job.isCompleted job));
            (str "isSuccess", VBool (Job.isSuccess job));
            (str "isFailed", VBool (Job.isFailed job))]
        ++ optField "output" (option_map outputValue (Job.output job))
        ++ optField "error" (option_map jobErrorValue (Job.error job))).

(** [(error as Error).message] *)
Definition errorMessage (e : Error) : jsstring :=
  match e with
  | NodeOperationError message => message
  | RequestError reason => reason
  end.

Definition listJobsRequest (o : ListOptions) (apiKey : jsstring) : Request :=
  mkRequest (str "POST") (PORTAL_URL ++ str "/api/jobs/list") (bearer apiKey)
    (VObj [(str "status",
             match status o with
             | Some (c :: r) => VStr (c :: r)
             | _ => VUndefined
             end);
           (str "size", VNum (ofZ (orNum (limit o) 25)))]).

Definition getProjectsRequest (apiKey : jsstring) : Request :=
  mkRequest (str "GET") (PORTAL_URL ++ str "/api/projects")
            [(str "Authorization", str "Bearer " ++ apiKey)] VUndefined.

(** [listJobs], on the [listOptions] of the input item. *)
Definition listJobs (portal : Portal) (o : ListOptions) (apiKey : jsstring)
  : M Value :=
  request (operations portal) (listJobsRequest o apiKey) (listReply portal).

(** [projects.map((project) => ({ name, value: project.id, description }))] *)
Definition projectOption (project : Project.t) : PropertyOptions.t :=
  PropertyOptions.mk (Project.name project) (Project.id project)
                     (Project.description project).

(** [getProjects]: whatever the [try] block throws (a rejected request, or
    the [TypeError] of [projects.map] when the reply has no [projects]) is
    caught and answered with the empty list. *)
Definition getProjects (portal : Portal) (apiKey : jsstring)
  : M (list PropertyOptions.t) :=
  fun w =>
    match request (operations portal) (getProjectsRequest apiKey)
                  (projectsReply portal) w with
    | (Returned (Some projects), w') =>
        (Returned (List.map projectOption projects), w')
    | (Returned None, w') => (Returned [], w')
    | (Thrown _, w') => (Returned [], w')
    | (OutOfFuel, w') => (OutOfFuel, w')
    end.

(** The body of the [try] block of [execute] for one item: the value that
    is pushed as [json], or [None] when the operation is none of the four
    and nothing is pushed. *)
Definition runItem (fuel : nat) (portal : Portal) (item : Item.t)
           (apiKey : jsstring) : M (option Value) :=
  let operation := Item.operation item in
  if jsstring_eqb operation (str "create") then
    result <- createJob (operations portal) fuel (Item.params item) apiKey ;;
    ret (Some (VObj result))
  else if jsstring_eqb operation (str "get") then
    result <- getJob (operations portal) (Item.jobId item) apiKey ;;
    ret (Some (jobValue result))
  else if jsstring_eqb operation (str "cancel") then
    result <- cancelJob (operations portal) (Item.jobId item) apiKey ;;
    ret (Some (VObj result))
  else if jsstring_eqb operation (str "list") then
    result <- listJobs portal (Item.listOptions item) apiKey ;;
    ret (Some result)
  else ret None.

(** The record pushed for an item that failed, under [continueOnFail]. *)
Definition errorRecord (e : Error) (i : nat) : NodeExecutionData.t :=
  NodeExecutionData.mk (VObj [(str "error", VStr (errorMessage e))]) (Some i).

(** [for (let i = 0; i < items.length; i++) { try { ... } catch { ... } }],
    from index [i] on, with the records pushed so far; [portalAt i] is what
    surrounds the processing of item [i]. *)
Fixpoint executeLoop (fuel : nat) (portalAt : nat -> Portal)
         (continueOnFail : bool) (apiKey : jsstring) (i : nat)
         (items : list Item.t) (returnData : list NodeExecutionData.t)
  : M (list NodeExecutionData.t) :=
  match items with
  | [] => ret returnData
  | item :: rest =>
      fun w =>
        match runItem fuel (portalAt i) item apiKey w with
        | (Returned (Some result), w') =>
            executeLoop fuel portalAt continueOnFail apiKey (S i) rest
              (returnData ++ [NodeExecutionData.mk result None]) w'
        | (Returned None, w') =>
            executeLoop fuel portalAt continueOnFail apiKey (S i) rest
              returnData w'
        | (Thrown e, w') =>
            if continueOnFail then
              executeLoop fuel portalAt continueOnFail apiKey (S i) rest
                (returnData ++ [errorRecord e i]) w'
            else (Thrown e, w')
        | (OutOfFuel, w') => (OutOfFuel, w')
        end
  end.

(** [execute], on the parameters of the input items. *)
Definition execute (fuel : nat) (portalAt : nat -> Portal)
           (continueOnFail : bool) (apiKey : jsstring) (items : list Item.t)
  : M (list (list NodeExecutionData.t)) :=
  returnData <- executeLoop fuel portalAt continueOnFail apiKey 0 items [] ;;
  ret [returnData].


(** ** Notions used in the statements *)

(** How many times the code unit [c] occurs in [s]. *)
Fixpoint occurrences (c : N) (s : jsstring) : nat :=
  match s with
  | [] => 0
  | x :: r => (if N.eqb x c then 1 else 0) + occurrences c r
  end.

(** [s] neither starts nor ends with white space. *)
Definition startsClean (s : jsstring) : bool :=
  match s with c :: _ => negb (isWhiteSpace c) | [] => true end.

Definition edgesClean (s : jsstring) : bool :=
  startsClean s && startsClean (rev s).

(** [segments.join(',')] *)
Fixpoint joinWith (sep : N) (segments : list jsstring) : jsstring :=
  match segments with
  | [] => []
  | [s] => s
  | s :: rest => s ++ sep :: joinWith sep rest
  end.

(** Whether [k] is among the keys [ks], and whether keys are pairwise
    different. *)
Fixpoint keyIn (k : jsstring) (ks : list jsstring) : bool :=
  match ks with
  | [] => false
  | k' :: r => jsstring_eqb k k' || keyIn k r
  end.

Fixpoint distinctKeys (ks : list jsstring) : bool :=
  match ks with
  | [] => true
  | k :: r => negb (keyIn k r) && distinctKeys r
  end.

(** The keys of an object, in order. *)
Definition keys (o : Obj) : list jsstring := List.map fst o.


(** Sample surroundings of the node and sample items. *)
Definition samplePortal (env : Env) : Portal :=
  mkPortal env (Resolved (VObj [(str "jobs", VArr [])]))
           (Resolved (Some [Project.mk (str "p1") (str "Alpha") None true;
                            Project.mk (str "p2") (str "Beta")
                                       (Some (str "second")) false])).

Definition sampleItem (operation : string) : Item.t :=
  Item.mk (str operation) scenario (str "job-1") (mkListOptions None None).

(** Surroundings in which the execution endpoint refuses the submission,
    and a batch whose second item meets them. *)
Definition refusing : Env :=
  scripted (Resolved (refused (Some (str "boom")) None)) neverFinishes [].

Definition samplePortals (i : nat) : Portal :=
  samplePortal (if (i =? 1)%nat then refusing else finishing).

Definition sampleBatch : list Item.t :=
  [sampleItem "cancel"; sampleItem "create"; sampleItem "list"].

(* ================================================================= *)
(** ** JSON.parse on sample texts *)

Example parse_array_of_strings :
  JSON.parse readWriteJson = Some (strings [str "Read"; str "Write"]).
Proof. reflexivity. Qed.

Example parse_object_last_duplicate_wins :
  JSON.parse (str "{" ++ quoted "a" ++ str ": 1, " ++ quoted "b"
              ++ str ": [true, null], " ++ quoted "a" ++ str ": -2.5e3 }")
  = Some (VObj [(str "a", VNum (mkNumber (-25) 2));
                (str "b", VArr [VBool true; VNull])]).
Proof. reflexivity. Qed.

Example parse_rejects :
  JSON.parse [] = None
  /\ JSON.parse (str "Read,Write") = None
  /\ JSON.parse (str "[1,]") = None
  /\ JSON.parse (str "01") = None
  /\ JSON.parse (str "1.") = None
  /\ JSON.parse (str "nulll") = None
  /\ JSON.parse (str "{not json") = None.
Proof. repeat split. Qed.

Example splitTrim_sample :
  splitTrim (str " Read , Write,,Bash ")
  = [str "Read"; str "Write"; []; str "Bash"].
Proof. reflexivity. Qed.

(* ================================================================= *)
(** ** The fuel of JSON.parse is never used up *)

Lemma skip_ws_length (s : jsstring) :
  (List.length (JSON.skip_ws s) <= List.length s)%nat.
Proof.
  induction s as [|c r IH]; simpl; [lia|].
  destruct (JSON.ws c); simpl; lia.
Qed.

Lemma chars_length (n : nat) :
  forall s acc t r,
    (List.length s <= n)%nat ->
    JSON.chars s acc = Some (t, r) -> (List.length r < List.length s)%nat.
Proof.
  induction n as [|n IH]; intros s acc t r Hn H;
    (destruct s as [|c s1]; [discriminate|]); simpl in Hn; [lia|].
  cbn [JSON.chars] in H.
  destruct (c =? 34)%N; [injection H as _ <-; simpl; lia|].
  destruct (c =? 92)%N.
  - destruct s1 as [|e s2]; [discriminate|].
    destruct (e =? 117)%N.
    + destruct s2 as [|h1 [|h2 [|h3 [|h4 s3]]]]; try discriminate.
      destruct (JSON.hex4 h1 h2 h3 h4); [|discriminate].
      apply IH in H; simpl in *; lia.
    + destruct (JSON.escape e); [|discriminate].
      apply IH in H; simpl in *; lia.
  - destruct (c <? 32)%N; [discriminate|].
    apply IH in H; simpl in *; lia.
Qed.

Lemma digits_length (s : jsstring) :
  forall acc n v m r,
    JSON.digits s acc n = (v, m, r) ->
    (List.length r <= List.length s)%nat.
Proof.
  induction s as [|c s IH]; intros acc n v m r H; simpl in H.
  - injection H as <- <- <-. simpl. lia.
  - destruct (JSON.isDigit c).
    + apply IH in H. simpl. lia.
    + injection H as <- <- <-. simpl. lia.
Qed.

Lemma intPart_length (s : jsstring) (i : Z) (r : jsstring) :
  JSON.intPart s = Some (i, r) -> (List.length r < List.length s)%nat.
Proof.
  unfold JSON.intPart. destruct s as [|c s1]; [discriminate|].
  destruct (JSON.isDigit c); [|discriminate]. cbn [negb].
  destruct (c =? 48)%N; [intros H; injection H as _ <-; simpl; lia|].
  destruct (JSON.digits s1 (Z.of_N (c - 48)) 0) as [[v k] r1] eqn:E.
  intros H; injection H as _ <-. apply digits_length in E. simpl. lia.
Qed.

Lemma fracPart_length (i : Z) (s : jsstring) (m fl : Z) (r : jsstring) :
  JSON.fracPart i s = Some (m, fl, r) -> (List.length r <= List.length s)%nat.
Proof.
  unfold JSON.fracPart. destruct s as [|d s1].
  - intros H; injection H as _ _ <-. lia.
  - destruct (d =? 46)%N; [|intros H; injection H as _ _ <-; lia].
    destruct (JSON.digits s1 i 0) as [[v k] r1] eqn:E.
    destruct (k =? 0); [discriminate|].
    intros H; injection H as _ _ <-. apply digits_length in E. simpl. lia.
Qed.

Lemma sign_length (s : jsstring) (sgn : Z) (r : jsstring) :
  JSON.sign s = (sgn, r) -> (List.length r <= List.length s)%nat.
Proof.
  unfold JSON.sign. destruct s as [|p s1].
  - intros H; injection H as _ <-. lia.
  - destruct (p =? 43)%N; [intros H; injection H as _ <-; simpl; lia|].
    destruct (p =? 45)%N; intros H; injection H as _ <-; simpl; lia.
Qed.

Lemma expPart_length (s : jsstring) (x : Z) (r : jsstring) :
  JSON.expPart s = Some (x, r) -> (List.length r <= List.length s)%nat.
Proof.
  unfold JSON.expPart. destruct s as [|e s1].
  - intros H; injection H as _ <-. lia.
  - destruct ((e =? 101) || (e =? 69))%N; [|intros H; injection H as _ <-; lia].
    destruct (JSON.sign s1) as [sgn r1] eqn:Es. apply sign_length in Es.
    destruct (JSON.digits r1 0 0) as [[y k] r2] eqn:E.
    destruct (k =? 0); [discriminate|].
    intros H; injection H as _ <-. apply digits_length in E. simpl. lia.
Qed.

Lemma unsignedNumber_length (s : jsstring) (n : Number) (r : jsstring) :
  JSON.unsignedNumber s = Some (n, r) -> (List.length r < List.length s)%nat.
Proof.
  unfold JSON.unsignedNumber.
  destruct (JSON.intPart s) as [[i r1]|] eqn:Ei; [|discriminate].
  destruct (JSON.fracPart i r1) as [[[m fl] r2]|] eqn:Ef; [|discriminate].
  destruct (JSON.expPart r2) as [[x r3]|] eqn:Ee; [|discriminate].
  intros H; injection H as _ <-.
  apply intPart_length in Ei. apply fracPart_length in Ef.
  apply expPart_length in Ee. lia.
Qed.

Lemma prefix_length (lit s r : jsstring) :
  JSON.prefix lit s = Some r ->
  (List.length r + List.length lit = List.length s)%nat.
Proof.
  revert s. induction lit as [|a lit IH]; intros s H; simpl in H.
  - injection H as <-. simpl. lia.
  - destruct s as [|b s]; [discriminate|].
    destruct (a =? b)%N; [|discriminate]. apply IH in H. simpl. lia.
Qed.

(** What a successful call leaves is shorter than what it was given. *)
Lemma JSON_value_length (fuel : nat) :
  (forall s v r, JSON.value fuel s = Some (v, r) ->
                 (List.length r < List.length s)%nat)
  /\ (forall s acc v r, JSON.elements fuel s acc = Some (v, r) ->
                        (List.length r < List.length s)%nat)
  /\ (forall s acc v r, JSON.members fuel s acc = Some (v, r) ->
                        (List.length r < List.length s)%nat).
Proof.
  induction fuel as [|f (IHv & IHe & IHm)].
  - repeat split; simpl; discriminate.
  - split; [|split]; intros.
    + cbn [JSON.value] in H.
      pose proof (skip_ws_length s) as Hs.
      destruct (JSON.skip_ws s) as [|c r0]; [discriminate|]. simpl in Hs.
      destruct (c =? 123)%N.
      { pose proof (skip_ws_length r0) as Hr.
        destruct (JSON.skip_ws r0) as [|d r1] eqn:E; [discriminate|].
        simpl in Hr.
        destruct (d =? 125)%N; [injection H as _ <-; lia|].
        apply IHm in H. simpl in H. lia. }
      destruct (c =? 91)%N.
      { pose proof (skip_ws_length r0) as Hr.
        destruct (JSON.skip_ws r0) as [|d r1] eqn:E; [discriminate|].
        simpl in Hr.
        destruct (d =? 93)%N; [injection H as _ <-; lia|].
        apply IHe in H. simpl in H. lia. }
      destruct (c =? 34)%N.
      { destruct (JSON.chars r0 []) as [[t r1]|] eqn:E; [|discriminate].
        injection H as _ <-.
        apply (chars_length _ _ _ _ _ (le_n _)) in E. lia. }
      destruct (c =? 45)%N.
      { destruct (JSON.unsignedNumber r0) as [[n r1]|] eqn:E; [|discriminate].
        injection H as _ <-. apply unsignedNumber_length in E. lia. }
      destruct (JSON.isDigit c).
      { destruct (JSON.unsignedNumber (c :: r0)) as [[n r1]|] eqn:E;
          [|discriminate].
        injection H as _ <-. apply unsignedNumber_length in E.
        simpl in E. lia. }
      destruct (JSON.prefix (str "true") (c :: r0)) as [r1|] eqn:E1.
      { injection H as _ <-. apply prefix_length in E1. simpl in E1. lia. }
      destruct (JSON.prefix (str "false") (c :: r0)) as [r1|] eqn:E2.
      { injection H as _ <-. apply prefix_length in E2. simpl in E2. lia. }
      destruct (JSON.prefix (str "null") (c :: r0)) as [r1|] eqn:E3;
        [|discriminate].
      injection H as _ <-. apply prefix_length in E3. simpl in E3. lia.
    + cbn [JSON.elements] in H.
      destruct (JSON.value f s) as [[v0 r0]|] eqn:E; [|discriminate].
      apply IHv in E.
      pose proof (skip_ws_length r0) as Hr.
      destruct (JSON.skip_ws r0) as [|c r1]; [discriminate|]. simpl in Hr.
      destruct (c =? 44)%N; [apply IHe in H; lia|].
      destruct (c =? 93)%N; [|discriminate]. injection H as _ <-. lia.
    + cbn [JSON.members] in H.
      pose proof (skip_ws_length s) as Hs.
      destruct (JSON.skip_ws s) as [|q r0]; [discriminate|]. simpl in Hs.
      destruct (q =? 34)%N; [|discriminate]. cbn [negb] in H.
      destruct (JSON.chars r0 []) as [[k r1]|] eqn:Ek; [|discriminate].
      apply (chars_length _ _ _ _ _ (le_n _)) in Ek.
      pose proof (skip_ws_length r1) as Hr1.
      destruct (JSON.skip_ws r1) as [|c r2]; [discriminate|]. simpl in Hr1.
      destruct (c =? 58)%N; [|discriminate]. cbn [negb] in H.
      destruct (JSON.value f r2) as [[v0 r3]|] eqn:Ev; [|discriminate].
      apply IHv in Ev.
      pose proof (skip_ws_length r3) as Hr3.
      destruct (JSON.skip_ws r3) as [|d r4]; [discriminate|]. simpl in Hr3.
      destruct (d =? 44)%N; [apply IHm in H; lia|].
      destruct (d =? 125)%N; [|discriminate]. injection H as _ <-. lia.
Qed.

(** Above the bound, one more unit of fuel changes nothing. *)
Lemma JSON_fuel_step (fuel : nat) :
  (forall s, (2 * List.length s + 1 <= fuel)%nat ->
             JSON.value fuel s = JSON.value (S fuel) s)
  /\ (forall s acc, (2 * List.length s + 2 <= fuel)%nat ->
                    JSON.elements fuel s acc = JSON.elements (S fuel) s acc)
  /\ (forall s acc, (2 * List.length s + 2 <= fuel)%nat ->
                    JSON.members fuel s acc = JSON.members (S fuel) s acc).
Proof.
  induction fuel as [|f (IHv & IHe & IHm)].
  - repeat split; intros; lia.
  - split; [|split]; intros.
    + set (g := S f) at 2. assert (Eg : g = S f) by reflexivity. clearbody g.
      cbn [JSON.value].
      pose proof (skip_ws_length s) as Hs.
      destruct (JSON.skip_ws s) as [|c r0]; [reflexivity|]. simpl in Hs.
      pose proof (skip_ws_length r0) as Hr.
      destruct (c =? 123)%N.
      { destruct (JSON.skip_ws r0) as [|d r1] eqn:E; [reflexivity|].
        simpl in Hr. destruct (d =? 125)%N; [reflexivity|].
        rewrite Eg. apply IHm. simpl. lia. }
      destruct (c =? 91)%N; [|reflexivity].
      destruct (JSON.skip_ws r0) as [|d r1] eqn:E; [reflexivity|].
      simpl in Hr. destruct (d =? 93)%N; [reflexivity|].
      rewrite Eg. apply IHe. simpl. lia.
    + set (g := S f) at 2. assert (Eg : g = S f) by reflexivity. clearbody g.
      cbn [JSON.elements].
      replace (JSON.value g s) with (JSON.value f s)
        by (rewrite Eg; apply IHv; lia).
      destruct (JSON.value f s) as [[v0 r0]|] eqn:E; [|reflexivity].
      apply (proj1 (JSON_value_length f)) in E.
      pose proof (skip_ws_length r0) as Hr.
      destruct (JSON.skip_ws r0) as [|c r1]; [reflexivity|]. simpl in Hr.
      destruct (c =? 44)%N; [|reflexivity].
      rewrite Eg. apply IHe. lia.
    + set (g := S f) at 2. assert (Eg : g = S f) by reflexivity. clearbody g.
      cbn [JSON.members].
      pose proof (skip_ws_length s) as Hs.
      destruct (JSON.skip_ws s) as [|q r0]; [reflexivity|]. simpl in Hs.
      destruct (negb (q =? 34)%N); [reflexivity|].
      destruct (JSON.chars r0 []) as [[k r1]|] eqn:Ek; [|reflexivity].
      apply (chars_length _ _ _ _ _ (le_n _)) in Ek.
      pose proof (skip_ws_length r1) as Hr1.
      destruct (JSON.skip_ws r1) as [|c r2]; [reflexivity|]. simpl in Hr1.
      destruct (negb (c =? 58)%N); [reflexivity|].
      replace (JSON.value g r2) with (JSON.value f r2)
        by (rewrite Eg; apply IHv; lia).
      destruct (JSON.value f r2) as [[v0 r3]|] eqn:Ev; [|reflexivity].
      apply (proj1 (JSON_value_length f)) in Ev.
      pose proof (skip_ws_length r3) as Hr3.
      destruct (JSON.skip_ws r3) as [|d r4]; [reflexivity|]. simpl in Hr3.
      destruct (d =? 44)%N; [|reflexivity].
      rewrite Eg. apply IHm. lia.
Qed.

(** [JSON.parse] decides with the fuel it takes: more fuel gives the same
    answer, so a [None] is a text outside the grammar. *)
Theorem JSON_parse_fuel_enough (s : jsstring) (extra : nat) :
  JSON.value (2 * List.length s + 2 + extra) s
  = JSON.value (2 * List.length s + 2) s.
Proof.
  induction extra as [|n IH]; [now rewrite Nat.add_0_r|].
  rewrite <- IH. rewrite Nat.add_succ_r. symmetry.
  apply (proj1 (JSON_fuel_step _)). lia.
Qed.

(* ================================================================= *)
(** ** Basic facts about strings and objects *)

Lemma jsstring_eqb_refl (a : jsstring) : jsstring_eqb a a = true.
Proof.
  induction a as [|x a IH]; simpl; [reflexivity|].
  now rewrite N.eqb_refl, IH.
Qed.

Lemma jsstring_eqb_eq (a b : jsstring) : jsstring_eqb a b = true <-> a = b.
Proof.
  split.
  - revert b; induction a as [|x a IH]; intros [|y b]; simpl;
      try discriminate; [reflexivity|].
    intros H. apply andb_true_iff in H as [Hx Hab].
    apply N.eqb_eq in Hx. now rewrite Hx, (IH b Hab).
  - intros ->. apply jsstring_eqb_refl.
Qed.

Lemma lookup_app (k : jsstring) (a b : Obj) :
  lookup k (a ++ b) =
  match lookup k a with Some v => Some v | None => lookup k b end.
Proof.
  induction a as [|[k' v] a IH]; simpl; [reflexivity|].
  now destruct (jsstring_eqb k k').
Qed.

Lemma lookup_setProp (k k' : jsstring) (v : Value) (o : Obj) :
  lookup k (setProp k' v o) =
  if jsstring_eqb k k' then Some v else lookup k o.
Proof.
  induction o as [|[k0 v0] o IH]; simpl.
  - reflexivity.
  - destruct (jsstring_eqb k' k0) eqn:E0; simpl.
    + apply jsstring_eqb_eq in E0; subst k0.
      now destruct (jsstring_eqb k k').
    + destruct (jsstring_eqb k k0) eqn:E1.
      * destruct (jsstring_eqb k k') eqn:E2; [|reflexivity].
        apply jsstring_eqb_eq in E1, E2; subst.
        now rewrite jsstring_eqb_refl in E0.
      * exact IH.
Qed.

Lemma lookup_spreadIf (k : jsstring) (c : bool) (fs : Obj) :
  lookup k (spreadIf c fs) = if c then lookup k fs else None.
Proof. now destruct c. Qed.

Lemma lookup_spreadStr (k : jsstring) (o : option jsstring) (fs : jsstring -> Obj) :
  lookup k (spreadStr o fs) =
  match o with Some (c :: r) => lookup k (fs (c :: r)) | _ => None end.
Proof. now destruct o as [[|c r]|]. Qed.

Lemma lookup_spreadNum (k : jsstring) (o : option Z) (fs : Z -> Obj) :
  lookup k (spreadNum o fs) =
  match o with
  | Some n => if n =? 0 then None else lookup k (fs n)
  | None => None
  end.
Proof. destruct o as [n|]; simpl; [now destruct (n =? 0)|reflexivity]. Qed.

(** The [options] member survives the later assignments to the body. *)
Lemma requestBody_options (p : Params) (token key : jsstring) :
  lookup (str "options") (requestBody p token key)
  = Some (VObj (requestOptions p token)).
Proof.
  unfold requestBody.
  destruct (callbackUrl (callbackOptions p)) as [[|u rl]|];
    destruct (ttl (advancedOptions p)) as [n|];
    try destruct (negb (n =? 0) && (0 <? n));
    rewrite ?lookup_setProp; reflexivity.
Qed.

Lemma optionOf_requestBody (k : string) (p : Params) (token key : jsstring) :
  optionOf k (requestBody p token key) = lookup (str k) (requestOptions p token).
Proof. unfold optionOf. now rewrite requestBody_options. Qed.

Lemma lookup_spreadIf_none (k : jsstring) (c : bool) (fs : Obj) :
  lookup k fs = None -> lookup k (spreadIf c fs) = None.
Proof. intros H. now destruct c. Qed.

Lemma lookup_spreadStr_none (k : jsstring) (o : option jsstring)
      (fs : jsstring -> Obj) :
  (forall s, lookup k (fs s) = None) -> lookup k (spreadStr o fs) = None.
Proof. intros H. destruct o as [[|c r]|]; simpl; auto. Qed.

Lemma lookup_spreadNum_none (k : jsstring) (o : option Z) (fs : Z -> Obj) :
  (forall n, lookup k (fs n) = None) -> lookup k (spreadNum o fs) = None.
Proof.
  intros H. destruct o as [n|]; simpl; [destruct (n =? 0)|]; auto.
Qed.

(** Skips, in a lookup through [requestOptions], the members spelled
    differently from the one that is looked up. *)
Ltac other_key :=
  intros; first [reflexivity | apply lookup_spreadIf_none; reflexivity].

Ltac skip_other_keys :=
  unfold requestOptions; cbv zeta;
  repeat rewrite lookup_app;
  repeat match goal with
    | |- context [lookup ?k (spreadStr ?o ?f)] =>
        rewrite (lookup_spreadStr_none k o f) by other_key
    | |- context [lookup ?k (spreadNum ?o ?f)] =>
        rewrite (lookup_spreadNum_none k o f) by other_key
    | |- context [lookup ?k (spreadIf ?c ?f)] =>
        rewrite (lookup_spreadIf_none k c f) by other_key
    | |- context [lookup ?k (?a :: ?b)] =>
        let H := fresh in
        assert (H : lookup k (a :: b) = None) by reflexivity;
        rewrite H; clear H
    end.

(* ================================================================= *)
(** ** Optional numeric fields *)

(** C8. [maxTurns] is a member of the request's options exactly when the
    configured value is defined and nonzero, and [ttl] is a member of the
    request exactly when the configured value is greater than zero; a
    configured zero builds the same request as an unset value. *)
Theorem optional_numbers_only_when_truthy :
  forall (p : Params) (token key : jsstring),
    optionOf "maxTurns" (requestBody p token key)
    = match maxTurns (modelOptions p) with
      | Some n => if n =? 0 then None else Some (VNum (ofZ n))
      | None => None
      end
    /\ lookup (str "ttl") (requestBody p token key)
       = match ttl (advancedOptions p) with
         | Some n => if 0 <? n then Some (VNum (ofZ n)) else None
         | None => None
         end
    /\ (forall mo cm sp fmt,
          requestBody (withModel (mkModelOptions mo cm sp (Some 0) fmt) p) token key
          = requestBody (withModel (mkModelOptions mo cm sp None fmt) p) token key)
    /\ (forall uid ik ai cb,
          requestBody (withAdvanced (mkAdvancedOptions uid ik (Some 0) ai cb) p) token key
          = requestBody (withAdvanced (mkAdvancedOptions uid ik None ai cb) p) token key).
Proof.
  intros p token key. split; [|split; [|split]].
  - rewrite optionOf_requestBody. skip_other_keys.
    rewrite lookup_spreadNum.
    destruct (maxTurns (modelOptions p)) as [n|]; [|reflexivity].
    now destruct (n =? 0).
  - unfold requestBody.
    destruct (callbackUrl (callbackOptions p)) as [[|u rl]|];
      destruct (ttl (advancedOptions p)) as [n|];
      rewrite ?lookup_setProp; try reflexivity;
      destruct (0 <? n) eqn:Hpos;
      destruct (n =? 0) eqn:Hz; simpl;
      rewrite ?lookup_setProp; try reflexivity;
      apply Z.eqb_eq in Hz; apply Z.ltb_lt in Hpos; lia.
  - intros; reflexivity.
  - intros; reflexivity.
Qed.

(* ================================================================= *)
(** ** Result normalizer *)

Lemma flatten_structuredOutput (job : Job.t) :
  lookup (str "structuredOutput") (flatten job)
  = if isUndefined (structuredOutputOf job) then None
    else Some (structuredOutputOf job).
Proof.
  unfold flatten, structuredOutputOf.
  destruct (Job.output job) as [o|]; [|reflexivity].
  destruct (IncubateOutput.result o) as [r|]; [|reflexivity].
  destruct (SDKResult.structured_output r); reflexivity.
Qed.

(** C3. Flattening a job is a total function: for every job, whichever of
    [output], [output.result] and [output.result.structured_output] are
    present, it yields a record with the job's identity; and that record
    has the key [structuredOutput] if and only if
    [output.result.structured_output] is defined, in which case the key
    holds that value, whatever its truthiness. *)
Theorem flatten_total_structuredOutput_iff_defined :
  forall job : Job.t,
    lookup (str "jobId") (flatten job) = Some (VStr (Job.id job))
    /\ (hasKey (str "structuredOutput") (flatten job) = true
        <-> exists o r,
              Job.output job = Some o
              /\ IncubateOutput.result o = Some r
              /\ SDKResult.structured_output r <> VUndefined)
    /\ (forall o r,
          Job.output job = Some o ->
          IncubateOutput.result o = Some r ->
          SDKResult.structured_output r <> VUndefined ->
          lookup (str "structuredOutput") (flatten job)
          = Some (SDKResult.structured_output r)).
Proof.
  intros job. split; [|split].
  - unfold flatten.
    destruct (Job.output job) as [o|]; [|reflexivity].
    destruct (IncubateOutput.result o) as [r|]; [|reflexivity].
    destruct (isUndefined (SDKResult.structured_output r)); reflexivity.
  - unfold hasKey. rewrite flatten_structuredOutput.
    unfold structuredOutputOf.
    destruct (Job.output job) as [o|] eqn:Ho.
    2:{ split; [discriminate|]. intros (o & r & H & _); discriminate. }
    destruct (IncubateOutput.result o) as [r|] eqn:Hr.
    2:{ split; [discriminate|]. intros (o' & r & H & H' & _). congruence. }
    split.
    + intros H. exists o, r. repeat split; trivial.
      intros E. rewrite E in H. discriminate.
    + intros (o' & r' & Ho' & Hr' & Hs).
      assert (o' = o) by congruence. subst o'.
      assert (r' = r) by congruence. subst r'.
      destruct (SDKResult.structured_output r); trivial. now elim Hs.
  - intros o r Ho Hr Hs. rewrite flatten_structuredOutput.
    unfold structuredOutputOf. rewrite Ho, Hr.
    destruct (SDKResult.structured_output r); trivial. now elim Hs.
Qed.

(* ================================================================= *)
(** ** Cancel *)

(** C9. When the remote cancel call succeeds, [cancelJob] returns exactly
    [{ success: true, jobId }] for the id it was given, whatever the body
    of the remote answer; the one request it issues is the cancel call. *)
Theorem cancelJob_returns_success_and_id :
  forall (env : Env) (jobId apiKey : jsstring) (w : World) (answer : Value),
    cancelReply env = Resolved answer ->
    cancelJob env jobId apiKey w
    = (Returned [(str "success", VBool true); (str "jobId", VStr jobId)],
       mkWorld (now w + callTime env (cancelJobRequest jobId apiKey))
               (fetches w) (sleeps w)
               (trace w ++ [Requested (cancelJobRequest jobId apiKey)])).
Proof.
  intros env jobId apiKey w answer H.
  unfold cancelJob, bind, request. now rewrite H.
Qed.

Lemma cancelJob_returns_success_and_id_witness :
  cancelJob (scripted (Resolved (accepted (str "job-1"))) neverFinishes [])
            (str "job-1") (str "ak_live") (initial 0)
  = (Returned [(str "success", VBool true); (str "jobId", VStr (str "job-1"))],
     mkWorld 100 0 0
       [Requested (cancelJobRequest (str "job-1") (str "ak_live"))]).
Proof.
  exact (cancelJob_returns_success_and_id
           (scripted (Resolved (accepted (str "job-1"))) neverFinishes [])
           (str "job-1") (str "ak_live") (initial 0) VNull eq_refl).
Defined.

(* ================================================================= *)
(** ** Polling defaults *)

(** C10. A polling interval of 0 seconds and a timeout of 0 seconds are
    indistinguishable from unset options: with either, [createJob] runs as
    it does with the option unset, which is as it runs with the defaults
    of 5 and 600 seconds written out. *)
Theorem zero_polling_options_mean_defaults :
  forall (env : Env) (fuel : nat) (p : Params) (apiKey : jsstring)
         (w : World) (interval limit : option Z),
    (createJob env fuel (withPolling (mkPollingOptions (Some 0) limit) p) apiKey w
     = createJob env fuel (withPolling (mkPollingOptions None limit) p) apiKey w)
    /\ (createJob env fuel (withPolling (mkPollingOptions None limit) p) apiKey w
        = createJob env fuel (withPolling (mkPollingOptions (Some 5) limit) p) apiKey w)
    /\ (createJob env fuel (withPolling (mkPollingOptions interval (Some 0)) p) apiKey w
        = createJob env fuel (withPolling (mkPollingOptions interval None) p) apiKey w)
    /\ (createJob env fuel (withPolling (mkPollingOptions interval None) p) apiKey w
        = createJob env fuel (withPolling (mkPollingOptions interval (Some 600)) p) apiKey w)
    /\ orNum (Some 0) 5 * 1000 = 5000
    /\ orNum (Some 0) 600 * 1000 = 600000.
Proof.
  intros. repeat split.
Qed.

(* ================================================================= *)
(** ** Submission failures *)

Lemma submit_world (env : Env) (p : Params) (apiKey : jsstring) (w w' : World)
      (data : IncubateResponse.t) :
  submit env p apiKey w = (Returned data, w') ->
  fetches w' = fetches w /\ sleeps w' = sleeps w
  /\ exists body,
       trace w' = trace w ++ [Requested (hmacKeyRequest (projectId p) apiKey);
                              Requested (incubateRequest body)].
Proof.
  unfold submit, getHmacKey, chooseIdempotencyKey, request, bind.
  destruct (hmacKeyReply env) as [h|e]; simpl; [|discriminate].
  destruct (idempotencyKey (advancedOptions p)) as [[|c r]|]; simpl;
    (destruct (incubateReply env) as [d|e]; simpl; [|discriminate]);
    (destruct (truthyStr (IncubateResponse.error d)
               || truthyStr (IncubateResponse.message d)); simpl;
     [discriminate|]);
    intros H; injection H as <- <-; simpl;
    (split; [reflexivity|split; [reflexivity|]]);
    eexists; rewrite <- app_assoc; reflexivity.
Qed.

(** C6. When the execution endpoint's answer carries a non-empty [message],
    or no [message] but a non-empty [error], [createJob] throws a
    [NodeOperationError] with that text: nothing is returned, and no status
    fetch and no timer follow the submission. *)
Theorem createJob_fails_on_embedded_error :
  forall (env : Env) (fuel : nat) (p : Params) (apiKey : jsstring) (w : World)
         (hmacSecret : jsstring) (data : IncubateResponse.t) (msg : jsstring),
    hmacKeyReply env = Resolved hmacSecret ->
    incubateReply env = Resolved data ->
    msg <> [] ->
    IncubateResponse.message data = Some msg
    \/ (truthyStr (IncubateResponse.message data) = false
        /\ IncubateResponse.error data = Some msg) ->
    exists w',
      createJob env fuel p apiKey w = (Thrown (NodeOperationError msg), w')
      /\ fetches w' = fetches w /\ sleeps w' = sleeps w
      /\ List.length (trace w') = (List.length (trace w) + 2)%nat.
Proof.
  intros env fuel p apiKey w h data msg Hh Hi Hne Hcase.
  unfold createJob, submit, getHmacKey, chooseIdempotencyKey, request, bind.
  rewrite Hh; simpl.
  assert (Hthrow :
    (truthyStr (IncubateResponse.error data)
     || truthyStr (IncubateResponse.message data) = true)
    /\ orStr (IncubateResponse.message data)
         (orStr (IncubateResponse.error data) (str "Failed to create job"))
       = msg).
  { destruct Hcase as [Hm | [Hm He]].
    - rewrite Hm. destruct msg as [|c r]; [now elim Hne|].
      simpl. now rewrite orb_true_r.
    - rewrite He. destruct msg as [|c r]; [now elim Hne|].
      destruct (IncubateResponse.message data) as [[|c' r']|];
        simpl in *; try discriminate; auto. }
  destruct Hthrow as [Hb Hm].
  destruct (idempotencyKey (advancedOptions p)) as [[|c r]|]; simpl;
    rewrite Hi; simpl; rewrite Hb, Hm; simpl;
    eexists; (split; [reflexivity|]); simpl;
    rewrite ?length_app; simpl; repeat split; lia.
Qed.

(** An answer with neither field set is an accepted submission: the
    fallback text [Failed to create job] is behind the same test as the
    two fields and is never the message thrown. *)
Remark submit_accepts_without_embedded_error
       (env : Env) (p : Params) (apiKey : jsstring) (w : World)
       (h : jsstring) (data : IncubateResponse.t) :
  hmacKeyReply env = Resolved h ->
  incubateReply env = Resolved data ->
  truthyStr (IncubateResponse.error data) = false ->
  truthyStr (IncubateResponse.message data) = false ->
  fst (submit env p apiKey w) = Returned data.
Proof.
  intros Hh Hi He Hm.
  unfold submit, getHmacKey, chooseIdempotencyKey, request, bind.
  rewrite Hh; simpl.
  destruct (idempotencyKey (advancedOptions p)) as [[|c r]|]; simpl;
    rewrite Hi; simpl; rewrite He, Hm; reflexivity.
Qed.

Lemma createJob_fails_on_embedded_error_witness :
  exists w',
    createJob (scripted (Resolved (refused (Some (str "boom")) None))
                        neverFinishes [x01; x02; x03; x04])
              5 (unset (str "proj") (str "hello") true) (str "ak_live")
              (initial 0)
    = (Thrown (NodeOperationError (str "boom")), w')
    /\ fetches w' = 0%nat /\ sleeps w' = 0%nat
    /\ List.length (trace w') = 2%nat.
Proof.
  apply (createJob_fails_on_embedded_error
           (scripted (Resolved (refused (Some (str "boom")) None))
                     neverFinishes [x01; x02; x03; x04])
           5 (unset (str "proj") (str "hello") true) (str "ak_live")
           (initial 0) (str "hmac-secret")
           (refused (Some (str "boom")) None) (str "boom")).
  - reflexivity.
  - reflexivity.
  - discriminate.
  - right. split; reflexivity.
Defined.

(* ================================================================= *)
(** ** Idempotency key *)

Lemma hexDigit_inj (x y : N) :
  (x < 16)%N -> (y < 16)%N -> hexDigit x = hexDigit y -> x = y.
Proof.
  unfold hexDigit. intros Hx Hy.
  destruct (N.ltb_spec x 10), (N.ltb_spec y 10); lia.
Qed.

Lemma hexByte_inj (a b : byte) : hexByte a = hexByte b -> a = b.
Proof.
  unfold hexByte. intros H. injection H as Hhi Hlo.
  pose proof (Byte.to_N_bounded a) as Ha.
  pose proof (Byte.to_N_bounded b) as Hb.
  apply hexDigit_inj in Hhi;
    [|apply N.Div0.div_lt_upper_bound; lia
     |apply N.Div0.div_lt_upper_bound; lia].
  apply hexDigit_inj in Hlo; [|apply N.mod_lt; lia|apply N.mod_lt; lia].
  assert (E : Byte.to_N a = Byte.to_N b).
  { rewrite (N.div_mod (Byte.to_N a) 16), (N.div_mod (Byte.to_N b) 16) by lia.
    now rewrite Hhi, Hlo. }
  assert (S : Some a = Some b)
    by now rewrite <- (Byte.of_to_N a), <- (Byte.of_to_N b), E.
  now injection S.
Qed.

Lemma toHex_inj (a b : list byte) : toHex a = toHex b -> a = b.
Proof.
  unfold toHex. revert b.
  induction a as [|x a IH]; intros [|y b]; simpl; try discriminate; trivial.
  intros H. injection H as Hhi Hlo Hrest.
  f_equal; [|now apply IH].
  apply hexByte_inj. unfold hexByte. now rewrite Hhi, Hlo.
Qed.

Lemma generatedKey_inj (t : Z) (a b : list byte) :
  generatedKey t a = generatedKey t b -> a = b.
Proof.
  unfold generatedKey. intros H.
  repeat apply app_inv_head in H. now apply toHex_inj.
Qed.

Lemma requestBody_idempotencyKey (p : Params) (token key : jsstring) :
  lookup (str "idempotencyKey") (requestBody p token key) = Some (VStr key).
Proof.
  unfold requestBody.
  destruct (callbackUrl (callbackOptions p)) as [[|u rl]|];
    destruct (ttl (advancedOptions p)) as [n|];
    try destruct (negb (n =? 0) && (0 <? n));
    rewrite ?lookup_setProp; reflexivity.
Qed.

(** What [submit] awaits once the signing secret [h] is there: the two
    requests, the second with the body built around the chosen key. *)
Lemma submit_trace (env : Env) (p : Params) (apiKey : jsstring) (w : World)
      (h : jsstring) :
  hmacKeyReply env = Resolved h ->
  trace (snd (submit env p apiKey w))
  = trace w
    ++ [Requested (hmacKeyRequest (projectId p) apiKey);
        Requested
          (incubateRequest
             (requestBody p (createToken env (tokenOptions p h))
                (match idempotencyKey (advancedOptions p) with
                 | Some (c :: r) => c :: r
                 | _ =>
                     generatedKey
                       (now w + callTime env (hmacKeyRequest (projectId p) apiKey))
                       (randomBytes env 4)
                 end)))].
Proof.
  intros Hh.
  unfold submit, getHmacKey, chooseIdempotencyKey, request, bind.
  rewrite Hh; simpl.
  destruct (idempotencyKey (advancedOptions p)) as [[|c r]|]; simpl;
    (destruct (incubateReply env) as [d|e]; simpl;
     [destruct (truthyStr (IncubateResponse.error d)
                || truthyStr (IncubateResponse.message d)); simpl|]);
    rewrite <- app_assoc; reflexivity.
Qed.

(** C7. In every [createJob] call that reaches the execution endpoint, a
    non-empty idempotency key supplied by the caller is the key of the
    request sent, unchanged. Without one, the key of the request is the
    prefix [n8n-], the clock in milliseconds, a dash and the hexadecimal
    digits of four random bytes; two such keys made at the same clock
    reading from different random bytes are different. *)
Theorem idempotency_key_verbatim_or_generated :
  forall (env : Env) (p : Params) (apiKey : jsstring) (w : World)
         (h : jsstring),
    hmacKeyReply env = Resolved h ->
    (forall k, idempotencyKey (advancedOptions p) = Some k -> k <> [] ->
       trace (snd (submit env p apiKey w))
       = trace w
         ++ [Requested (hmacKeyRequest (projectId p) apiKey);
             Requested
               (incubateRequest
                  (requestBody p (createToken env (tokenOptions p h)) k))]
       /\ lookup (str "idempotencyKey")
            (requestBody p (createToken env (tokenOptions p h)) k)
          = Some (VStr k))
    /\ (truthyStr (idempotencyKey (advancedOptions p)) = false ->
        forall key,
          key = str "n8n-"
                ++ numberToString
                     (now w + callTime env (hmacKeyRequest (projectId p) apiKey))
                ++ str "-" ++ toHex (randomBytes env 4) ->
          trace (snd (submit env p apiKey w))
          = trace w
            ++ [Requested (hmacKeyRequest (projectId p) apiKey);
                Requested
                  (incubateRequest
                     (requestBody p (createToken env (tokenOptions p h)) key))]
          /\ lookup (str "idempotencyKey")
               (requestBody p (createToken env (tokenOptions p h)) key)
             = Some (VStr key))
    /\ (forall (t : Z) (bytes bytes' : list byte),
          bytes <> bytes' ->
          str "n8n-" ++ numberToString t ++ str "-" ++ toHex bytes
          <> str "n8n-" ++ numberToString t ++ str "-" ++ toHex bytes').
Proof.
  intros env p apiKey w h Hh. split; [|split].
  - intros k Hk Hne. split; [|apply requestBody_idempotencyKey].
    rewrite (submit_trace env p apiKey w h Hh), Hk.
    destruct k as [|c r]; [now elim Hne|reflexivity].
  - intros Hk key ->. split; [|apply requestBody_idempotencyKey].
    rewrite (submit_trace env p apiKey w h Hh).
    destruct (idempotencyKey (advancedOptions p)) as [[|c r]|];
      try discriminate; reflexivity.
  - intros t bytes bytes' Hne E. apply Hne.
    now apply (generatedKey_inj t).
Qed.

Lemma idempotency_key_verbatim_or_generated_witness :
  trace (snd (submit finishing scenario (str "ak_live") (initial 1000)))
  = [Requested (hmacKeyRequest (str "proj") (str "ak_live"));
     Requested
       (incubateRequest
          (requestBody scenario (str "signed-token")
                       (str "n8n-1100-01020304")))]
  /\ generatedKey 1100 [x01; x02; x03; x04]
     <> generatedKey 1100 [x01; x02; x03; x05].
Proof.
  destruct (idempotency_key_verbatim_or_generated
              finishing scenario (str "ak_live") (initial 1000)
              (str "hmac-secret") eq_refl) as (_ & Hgenerated & Hdistinct).
  split.
  - apply (Hgenerated eq_refl (str "n8n-1100-01020304") eq_refl).
  - apply (Hdistinct 1100 [x01; x02; x03; x04] [x01; x02; x03; x05]).
    discriminate.
Defined.

(* ================================================================= *)
(** ** Tool list and output format *)

Ltac split_matches H :=
  repeat (match type of H with
          | context [match ?x with _ => _ end] => destruct x eqn:?
          | context [if ?x then _ else _] => destruct x eqn:?
          end; try discriminate H).

(** No JSON text decodes to [undefined]. *)
Lemma JSON_value_defined (fuel : nat) :
  (forall s v r, JSON.value fuel s = Some (v, r) -> isUndefined v = false)
  /\ (forall s acc v r,
        JSON.elements fuel s acc = Some (v, r) -> isUndefined v = false)
  /\ (forall s acc v r,
        JSON.members fuel s acc = Some (v, r) -> isUndefined v = false).
Proof.
  induction fuel as [|f (IHv & IHe & IHm)].
  - repeat split; simpl; discriminate.
  - split; [|split]; simpl; intros.
    + split_matches H; try (injection H as <- <-; reflexivity); eauto.
    + split_matches H; try (injection H as <- <-; reflexivity); eauto.
    + split_matches H; try (injection H as <- <-; reflexivity); eauto.
Qed.

Lemma JSON_parse_defined (s : jsstring) (v : Value) :
  JSON.parse s = Some v -> isUndefined v = false.
Proof.
  unfold JSON.parse. intros H.
  destruct (JSON.value (2 * List.length s + 2) s) as [[v' r]|] eqn:E;
    [|discriminate].
  destruct (JSON.skip_ws r); [|discriminate]. injection H as <-.
  eapply (proj1 (JSON_value_defined _)); eassumption.
Qed.

(** C4, for the strings the builder parses. A non-empty tools string is
    first read as JSON: when it is valid JSON (a JSON array of strings in
    particular), the request's [tools] is the decoded value itself; when it
    is not valid JSON, [tools] is the list of the comma-separated segments
    of the string, each trimmed. An empty or unset tools string is never
    parsed and the request has no [tools] member. *)
Theorem tools_parsed_as_json_else_comma_split :
  forall (p : Params) (token key : jsstring),
    (forall s, tools (toolOptions p) = Some s -> s <> [] ->
       (forall l, JSON.parse s = Some (strings l) ->
                  optionOf "tools" (requestBody p token key) = Some (strings l))
       /\ (forall v, JSON.parse s = Some v ->
                     optionOf "tools" (requestBody p token key) = Some v)
       /\ (JSON.parse s = None ->
           optionOf "tools" (requestBody p token key)
           = Some (strings (splitTrim s))))
    /\ (truthyStr (tools (toolOptions p)) = false ->
        optionOf "tools" (requestBody p token key) = None).
Proof.
  intros p token key.
  assert (Hfield :
    optionOf "tools" (requestBody p token key)
    = if isUndefined (toolsValue (toolOptions p)) then None
      else Some (toolsValue (toolOptions p))).
  { rewrite optionOf_requestBody. skip_other_keys.
    rewrite lookup_spreadIf.
    now destruct (isUndefined (toolsValue (toolOptions p))). }
  rewrite Hfield. unfold toolsValue. split.
  - intros s Hs Hne. rewrite Hs. destruct s as [|c r]; [now elim Hne|].
    assert (Hv : forall v, JSON.parse (c :: r) = Some v ->
                 (if isUndefined
                       match JSON.parse (c :: r) with
                       | Some v => v
                       | None => strings (splitTrim (c :: r))
                       end
                  then None
                  else Some
                         match JSON.parse (c :: r) with
                         | Some v => v
                         | None => strings (splitTrim (c :: r))
                         end) = Some v).
    { intros v Hp. rewrite Hp. now rewrite (JSON_parse_defined _ _ Hp). }
    split; [|split].
    + intros l Hp. now apply Hv.
    + exact Hv.
    + intros Hp. now rewrite Hp.
  - intros Hs. destruct (tools (toolOptions p)) as [[|c r]|];
      try discriminate; reflexivity.
Qed.

Lemma tools_parsed_as_json_else_comma_split_witness :
  optionOf "tools"
    (requestBody (withToolsString readWriteJson)
                 (str "token") (str "key"))
  = Some (strings [str "Read"; str "Write"])
  /\ optionOf "tools"
       (requestBody (withToolsString (str " Read , Write,Bash "))
                    (str "token") (str "key"))
     = Some (strings [str "Read"; str "Write"; str "Bash"]).
Proof.
  split.
  - apply (proj1 (tools_parsed_as_json_else_comma_split
                    (withToolsString readWriteJson)
                    (str "token") (str "key"))
                 readWriteJson eq_refl).
    + discriminate.
    + reflexivity.
  - apply (proj1 (tools_parsed_as_json_else_comma_split
                    (withToolsString (str " Read , Write,Bash "))
                    (str "token") (str "key"))
                 (str " Read , Write,Bash ") eq_refl).
    + discriminate.
    + reflexivity.
Defined.

(** C4 does not extend to the empty tools string: it is not valid JSON and
    its comma-separated segments are the one empty segment, yet the request
    has no [tools] member. *)
Lemma tools_empty_string_counterexample :
  JSON.parse [] = None
  /\ strings (splitTrim []) = VArr [VStr []]
  /\ optionOf "tools"
       (requestBody (withToolsString []) (str "token") (str "key"))
     = None.
Proof. repeat split. Qed.

Lemma optionOf_outputFormat (p : Params) (token key : jsstring) :
  optionOf "outputFormat" (requestBody p token key)
  = if truthy (parsedOutputFormat (modelOptions p))
       && (0 <? keysLength (parsedOutputFormat (modelOptions p)))%nat
    then Some (VObj [(str "type", VStr (str "json_schema"));
                     (str "schema", parsedOutputFormat (modelOptions p))])
    else None.
Proof.
  rewrite optionOf_requestBody. skip_other_keys.
  rewrite lookup_spreadIf.
  now destruct (truthy (parsedOutputFormat (modelOptions p))
                && (0 <? keysLength (parsedOutputFormat (modelOptions p)))%nat).
Qed.

Lemma parsedOutputFormat_invalid (mo cm sp : option jsstring) (mt : option Z)
      (s : jsstring) :
  JSON.parse s = None ->
  parsedOutputFormat (mkModelOptions mo cm sp mt (VStr s)) = VUndefined.
Proof.
  intros H. unfold parsedOutputFormat; simpl. rewrite H. now destruct s.
Qed.

(** C5. An output format given as a string that is not valid JSON is
    ignored: the request has no [outputFormat] member, and is the very
    request built when no output format is given, so nothing fails. An
    output format that is a non-empty object (an array included), or a
    string that decodes to one, is sent as
    [{ type: "json_schema", schema: <that object> }]. *)
Theorem outputFormat_invalid_ignored_object_wrapped :
  forall (p : Params) (token key : jsstring),
    (forall s,
       outputFormat (modelOptions p) = VStr s -> JSON.parse s = None ->
       optionOf "outputFormat" (requestBody p token key) = None)
    /\ (forall mo cm sp mt s,
          JSON.parse s = None ->
          requestBody (withModel (mkModelOptions mo cm sp mt (VStr s)) p) token key
          = requestBody (withModel (mkModelOptions mo cm sp mt VUndefined) p) token key)
    /\ (forall fields,
          fields <> [] ->
          outputFormat (modelOptions p) = VObj fields
          \/ (exists s, outputFormat (modelOptions p) = VStr s
                        /\ JSON.parse s = Some (VObj fields)) ->
          optionOf "outputFormat" (requestBody p token key)
          = Some (VObj [(str "type", VStr (str "json_schema"));
                        (str "schema", VObj fields)]))
    /\ (forall items,
          items <> [] ->
          outputFormat (modelOptions p) = VArr items
          \/ (exists s, outputFormat (modelOptions p) = VStr s
                        /\ JSON.parse s = Some (VArr items)) ->
          optionOf "outputFormat" (requestBody p token key)
          = Some (VObj [(str "type", VStr (str "json_schema"));
                        (str "schema", VArr items)])).
Proof.
  intros p token key. split; [|split; [|split]].
  - intros s Hs Hp. rewrite optionOf_outputFormat.
    unfold parsedOutputFormat. rewrite Hs. simpl. rewrite Hp.
    now destruct s.
  - intros mo cm sp mt s Hp.
    unfold requestBody, requestOptions, withModel; simpl.
    now rewrite (parsedOutputFormat_invalid mo cm sp mt s Hp).
  - intros fields Hne Hcase. rewrite optionOf_outputFormat.
    assert (E : parsedOutputFormat (modelOptions p) = VObj fields).
    { unfold parsedOutputFormat.
      destruct Hcase as [Ho | (s & Hs & Hp)].
      - now rewrite Ho.
      - rewrite Hs. destruct s as [|c r]; [discriminate Hp|].
        simpl. now rewrite Hp. }
    rewrite E. destruct fields; [now elim Hne|reflexivity].
  - intros items Hne Hcase. rewrite optionOf_outputFormat.
    assert (E : parsedOutputFormat (modelOptions p) = VArr items).
    { unfold parsedOutputFormat.
      destruct Hcase as [Ho | (s & Hs & Hp)].
      - now rewrite Ho.
      - rewrite Hs. destruct s as [|c r]; [discriminate Hp|].
        simpl. now rewrite Hp. }
    rewrite E. destruct items; [now elim Hne|reflexivity].
Qed.

Lemma outputFormat_invalid_ignored_object_wrapped_witness :
  optionOf "outputFormat"
    (requestBody (withOutputFormat (VStr (str "{not json")))
                 (str "token") (str "key")) = None
  /\ optionOf "outputFormat"
       (requestBody (withOutputFormat (VStr nameSchemaJson))
                    (str "token") (str "key"))
     = Some (VObj [(str "type", VStr (str "json_schema"));
                   (str "schema", VObj nameSchema)]).
Proof.
  split.
  - apply (proj1 (outputFormat_invalid_ignored_object_wrapped
                    (withOutputFormat (VStr (str "{not json")))
                    (str "token") (str "key"))
                 (str "{not json")); reflexivity.
  - apply (proj1 (proj2 (proj2 (outputFormat_invalid_ignored_object_wrapped
                                  (withOutputFormat (VStr nameSchemaJson))
                                  (str "token") (str "key"))))
                 nameSchema).
    + discriminate.
    + right. exists nameSchemaJson. split; reflexivity.
Defined.

(* ================================================================= *)
(** ** Completion poller *)

Section Polling.

Variable env : Env.
Variables vesselId apiKey : jsstring.
Variables interval limit start : Z.
Variable before : list Event.

Local Abbreviation atRound :=
  (atRound env vesselId apiKey interval start before).

Lemma poll_round (fuel k : nat) (job : Job.t) :
  jobReply env k = Resolved job ->
  Job.isCompleted job = false ->
  elapsed env interval k < limit ->
  poll env (S fuel) vesselId apiKey interval limit start (atRound k)
  = poll env fuel vesselId apiKey interval limit start (atRound (S k)).
Proof.
  intros Hreply Hrun Htime.
  apply Z.ltb_lt in Htime.
  cbn [poll]. unfold bind, dateNow, getJob, sleep, ret.
  unfold atRound. cbn [now fetches sleeps trace].
  replace (start + elapsed env interval k - start)
    with (elapsed env interval k) by lia.
  rewrite Htime. cbn [now fetches sleeps trace].
  rewrite Hreply. cbn [settle ret]. unfold ret. rewrite Hrun.
  cbn [now fetches sleeps trace].
  f_equal. cbn [elapsed rounds].
  f_equal; [lia|]. now rewrite <- !app_assoc.
Qed.

Lemma poll_rounds (n fuel : nat) :
  (forall k, (k < n)%nat ->
     exists job, jobReply env k = Resolved job
                 /\ Job.isCompleted job = false) ->
  (forall k, (k < n)%nat -> elapsed env interval k < limit) ->
  poll env (n + fuel) vesselId apiKey interval limit start (atRound 0)
  = poll env fuel vesselId apiKey interval limit start (atRound n).
Proof.
  revert fuel. induction n as [|n IH]; intros fuel Hjobs Htime.
  - reflexivity.
  - replace (S n + fuel)%nat with (n + S fuel)%nat by lia.
    rewrite IH by (intros; first [apply Hjobs | apply Htime]; lia).
    destruct (Hjobs n) as (job & Hreply & Hrun); [lia|].
    apply (poll_round fuel n job Hreply Hrun). apply Htime. lia.
Qed.

Lemma poll_completed (fuel k : nat) (job : Job.t) :
  jobReply env k = Resolved job ->
  Job.isCompleted job = true ->
  elapsed env interval k < limit ->
  poll env (S fuel) vesselId apiKey interval limit start (atRound k)
  = (Returned (Some (flatten job)),
     mkWorld (start + elapsed env interval k + fetchTime env k) (S k) k
             (before ++ rounds k vesselId apiKey interval
              ++ [Requested (getJobRequest vesselId apiKey)])).
Proof.
  intros Hreply Hdone Htime.
  apply Z.ltb_lt in Htime.
  cbn [poll]. unfold bind, dateNow, getJob, ret.
  unfold atRound. cbn [now fetches sleeps trace].
  replace (start + elapsed env interval k - start)
    with (elapsed env interval k) by lia.
  rewrite Htime. cbn [now fetches sleeps trace].
  rewrite Hreply. cbn [settle ret]. unfold ret. rewrite Hdone.
  now rewrite <- app_assoc.
Qed.

Lemma poll_overrun (fuel k : nat) :
  limit <= elapsed env interval k ->
  poll env (S fuel) vesselId apiKey interval limit start (atRound k)
  = (Returned None, atRound k).
Proof.
  intros Htime.
  apply Z.ltb_ge in Htime.
  cbn [poll]. unfold bind, dateNow, ret.
  unfold atRound. cbn [now].
  replace (start + elapsed env interval k - start)
    with (elapsed env interval k) by lia.
  now rewrite Htime.
Qed.

Lemma rounds_issue_no_cancel (k : nat) :
  existsb isCancel (rounds k vesselId apiKey interval) = false.
Proof.
  induction k as [|k IH]; [reflexivity|].
  cbn [rounds]. rewrite existsb_app, IH. reflexivity.
Qed.

End Polling.

Lemma fresh_world_atRound (env : Env) (vesselId apiKey : jsstring)
      (interval : Z) (w : World) :
  fetches w = 0%nat -> sleeps w = 0%nat ->
  w = atRound env vesselId apiKey interval (now w) (trace w) 0.
Proof.
  destruct w as [t f s tr]; simpl. intros -> ->.
  unfold atRound; simpl. now rewrite Z.add_0_r, app_nil_r.
Qed.

(** [createJob] with [waitForCompletion], from the accepted submission on:
    it is the loop started in the world the submission left. *)
Lemma createJob_waiting (env : Env) (fuel : nat) (p : Params)
      (apiKey : jsstring) (t0 : Z) (data : IncubateResponse.t) (w1 : World) :
  waitForCompletion p = true ->
  submit env p apiKey (initial t0) = (Returned data, w1) ->
  createJob env fuel p apiKey (initial t0)
  = match
      poll env fuel (IncubateResponse.vesselId data) apiKey
           (orNum (pollingInterval (pollingOptions p)) 5 * 1000)
           (orNum (timeout (pollingOptions p)) 600 * 1000)
           (now w1)
           (atRound env (IncubateResponse.vesselId data) apiKey
                    (orNum (pollingInterval (pollingOptions p)) 5 * 1000)
                    (now w1) (trace w1) 0)
    with
    | (Returned (Some result), w) => (Returned result, w)
    | (Returned None, w) =>
        (Thrown (NodeOperationError
                   (timeoutMessage (IncubateResponse.vesselId data)
                                   (pollingOptions p))), w)
    | (Thrown e, w) => (Thrown e, w)
    | (OutOfFuel, w) => (OutOfFuel, w)
    end.
Proof.
  intros Hwait Hsubmit.
  destruct (submit_world _ _ _ _ _ _ Hsubmit) as (Hf & Hs & _).
  unfold createJob. unfold bind at 1. rewrite Hsubmit, Hwait.
  cbn [negb]. unfold bind at 1. unfold dateNow. unfold bind.
  rewrite <- (fresh_world_atRound env _ apiKey _ w1 Hf Hs).
  destruct (poll env fuel (IncubateResponse.vesselId data) apiKey _ _ _ w1)
    as [[[result|]|e|] w]; reflexivity.
Qed.

(** C1. With [waitForCompletion], after an accepted submission, when the
    first [N] status fetches find the job unfinished, the next one finds it
    completed, and the loop condition holds at each of these [N+1] checks,
    [createJob] returns the flattened record of that job. Its trace after
    the submission is: a fetch at once, then [N] times a timer of exactly
    the poll interval followed by a fetch, and nothing after the fetch that
    found the job completed: [N+1] fetches and [N] timers in all. *)
Theorem createJob_returns_at_first_completed_fetch :
  forall (env : Env) (fuel : nat) (p : Params) (apiKey : jsstring) (t0 : Z)
         (data : IncubateResponse.t) (w1 : World) (N : nat) (job : Job.t),
    waitForCompletion p = true ->
    submit env p apiKey (initial t0) = (Returned data, w1) ->
    (forall k, (k < N)%nat ->
       exists j, jobReply env k = Resolved j /\ Job.isCompleted j = false) ->
    jobReply env N = Resolved job ->
    Job.isCompleted job = true ->
    (forall k, (k <= N)%nat ->
       elapsed env (orNum (pollingInterval (pollingOptions p)) 5 * 1000) k
       < orNum (timeout (pollingOptions p)) 600 * 1000) ->
    (N < fuel)%nat ->
    createJob env fuel p apiKey (initial t0)
    = (Returned (flatten job),
       mkWorld
         (now w1
          + elapsed env (orNum (pollingInterval (pollingOptions p)) 5 * 1000) N
          + fetchTime env N)
         (S N) N
         (trace w1
          ++ rounds N (IncubateResponse.vesselId data) apiKey
                    (orNum (pollingInterval (pollingOptions p)) 5 * 1000)
          ++ [Requested
                (getJobRequest (IncubateResponse.vesselId data) apiKey)])).
Proof.
  intros env fuel p apiKey t0 data w1 N job
         Hwait Hsubmit Hjobs Hreply Hdone Htime Hfuel.
  rewrite (createJob_waiting env fuel p apiKey t0 data w1 Hwait Hsubmit).
  replace fuel with (N + S (fuel - S N))%nat by lia.
  rewrite poll_rounds; [|exact Hjobs|intros; apply Htime; lia].
  rewrite (poll_completed _ _ _ _ _ _ _ _ N job Hreply Hdone);
    [reflexivity|apply Htime; lia].
Qed.

(** The run of [createJob] that leaves the loop by its condition. *)
Lemma createJob_overrun (env : Env) (fuel : nat) (p : Params)
      (apiKey : jsstring) (t0 : Z) (data : IncubateResponse.t) (w1 : World)
      (K : nat) :
  waitForCompletion p = true ->
  submit env p apiKey (initial t0) = (Returned data, w1) ->
  (forall k, exists j,
     jobReply env k = Resolved j /\ Job.isCompleted j = false) ->
  (forall k, (k < K)%nat ->
     elapsed env (orNum (pollingInterval (pollingOptions p)) 5 * 1000) k
     < orNum (timeout (pollingOptions p)) 600 * 1000) ->
  orNum (timeout (pollingOptions p)) 600 * 1000
  <= elapsed env (orNum (pollingInterval (pollingOptions p)) 5 * 1000) K ->
  (K < fuel)%nat ->
  createJob env fuel p apiKey (initial t0)
  = (Thrown
       (NodeOperationError
          (timeoutMessage (IncubateResponse.vesselId data) (pollingOptions p))),
     atRound env (IncubateResponse.vesselId data) apiKey
             (orNum (pollingInterval (pollingOptions p)) 5 * 1000)
             (now w1) (trace w1) K).
Proof.
  intros Hwait Hsubmit Hjobs Htime Hover Hfuel.
  rewrite (createJob_waiting env fuel p apiKey t0 data w1 Hwait Hsubmit).
  replace fuel with (K + S (fuel - S K))%nat by lia.
  rewrite poll_rounds; [|intros; apply Hjobs|exact Htime].
  rewrite poll_overrun by exact Hover. reflexivity.
Qed.

(** C2. With [waitForCompletion], after an accepted submission, when no
    fetch finds the job completed and the [K]-th evaluation of the loop
    condition is the first at which the time elapsed since polling began
    has reached the timeout, [createJob] throws the error whose message
    names the job id and the timeout in seconds. The [K] fetches made
    until then are the last ones, and no cancel request was issued. *)
Theorem createJob_times_out :
  forall (env : Env) (fuel : nat) (p : Params) (apiKey : jsstring) (t0 : Z)
         (data : IncubateResponse.t) (w1 : World) (K : nat),
    waitForCompletion p = true ->
    submit env p apiKey (initial t0) = (Returned data, w1) ->
    (forall k, exists j,
       jobReply env k = Resolved j /\ Job.isCompleted j = false) ->
    (forall k, (k < K)%nat ->
       elapsed env (orNum (pollingInterval (pollingOptions p)) 5 * 1000) k
       < orNum (timeout (pollingOptions p)) 600 * 1000) ->
    orNum (timeout (pollingOptions p)) 600 * 1000
    <= elapsed env (orNum (pollingInterval (pollingOptions p)) 5 * 1000) K ->
    (K < fuel)%nat ->
    createJob env fuel p apiKey (initial t0)
    = (Thrown
         (NodeOperationError
            (str "Job " ++ IncubateResponse.vesselId data
             ++ str " did not complete within "
             ++ numberToString (orNum (timeout (pollingOptions p)) 600)
             ++ str " seconds")),
       mkWorld
         (now w1
          + elapsed env (orNum (pollingInterval (pollingOptions p)) 5 * 1000) K)
         K K
         (trace w1
          ++ rounds K (IncubateResponse.vesselId data) apiKey
                    (orNum (pollingInterval (pollingOptions p)) 5 * 1000)))
    /\ existsb isCancel
         (trace w1
          ++ rounds K (IncubateResponse.vesselId data) apiKey
                    (orNum (pollingInterval (pollingOptions p)) 5 * 1000))
       = false.
Proof.
  intros env fuel p apiKey t0 data w1 K
         Hwait Hsubmit Hjobs Htime Hover Hfuel.
  split.
  - exact (createJob_overrun env fuel p apiKey t0 data w1 K
             Hwait Hsubmit Hjobs Htime Hover Hfuel).
  - destruct (submit_world _ _ _ _ _ _ Hsubmit) as (_ & _ & body & Htrace).
    rewrite existsb_app, rounds_issue_no_cancel, Htrace. reflexivity.
Qed.

Lemma createJob_returns_at_first_completed_fetch_witness :
  fst (createJob finishing 10 scenario (str "ak_live") (initial 1000))
  = Returned (flatten finishedJob)
  /\ fetches (snd (createJob finishing 10 scenario (str "ak_live") (initial 1000)))
     = 3%nat
  /\ sleeps (snd (createJob finishing 10 scenario (str "ak_live") (initial 1000)))
     = 2%nat.
Proof.
  pose proof
    (createJob_returns_at_first_completed_fetch
       finishing 10 scenario (str "ak_live") 1000 (accepted (str "job-1"))
       (snd (submit finishing scenario (str "ak_live") (initial 1000)))
       2 finishedJob eq_refl eq_refl) as H.
  rewrite H.
  - repeat split.
  - intros k Hk. destruct k as [|[|k]]; [| |lia];
      eexists; split; reflexivity.
  - reflexivity.
  - reflexivity.
  - intros k Hk. destruct k as [|[|[|k]]]; [| | |lia]; reflexivity.
  - lia.
Defined.

Lemma createJob_times_out_witness :
  fst (createJob stalling 10 scenario (str "ak_live") (initial 1000))
  = Thrown (NodeOperationError
              (str "Job job-1 did not complete within 3 seconds"))
  /\ fetches (snd (createJob stalling 10 scenario (str "ak_live") (initial 1000)))
     = 3%nat.
Proof.
  destruct
    (createJob_times_out
       stalling 10 scenario (str "ak_live") 1000 (accepted (str "job-1"))
       (snd (submit stalling scenario (str "ak_live") (initial 1000)))
       3 eq_refl eq_refl) as [H _].
  - intros k. eexists; split; reflexivity.
  - intros k Hk. destruct k as [|[|[|k]]]; [| | |lia]; reflexivity.
  - discriminate.
  - lia.
  - rewrite H. split; reflexivity.
Defined.

(** The end-to-end scenario: two unfinished polls, then the completed job
    with a structured output. *)
Example scenario_record :
  let record := flatten finishedJob in
  lookup (str "status") record = Some (VStr (str "COMPLETED"))
  /\ lookup (str "isSuccess") record = Some (VBool true)
  /\ lookup (str "structuredOutput") record
     = Some (VObj [(str "name", VStr (str "x"))])
  /\ lookup (str "resultSubtype") record = Some (VStr (str "success")).
Proof. repeat split. Qed.

(** Falsy structured outputs are kept. *)
Example falsy_structured_outputs_kept :
  let job v :=
    sampleJob true
      (Some (IncubateOutput.mk true None (Some (sampleResult v)) None)) in
  lookup (str "structuredOutput") (flatten (job (VNum (ofZ 0))))
  = Some (VNum (ofZ 0))
  /\ lookup (str "structuredOutput") (flatten (job (VBool false)))
     = Some (VBool false)
  /\ lookup (str "structuredOutput") (flatten (job (VObj []))) = Some (VObj [])
  /\ lookup (str "structuredOutput") (flatten (job VNull)) = Some VNull
  /\ lookup (str "structuredOutput") (flatten (job VUndefined)) = None.
Proof. repeat split. Qed.

(** *** The loop ends when the clock advances *)

Lemma elapsed_grows (env : Env) (interval : Z) :
  (forall k, 1 <= fetchTime env k + sleepTime env k interval) ->
  forall n, Z.of_nat n <= elapsed env interval n.
Proof.
  intros Hstep n. induction n as [|n IH]; [reflexivity|].
  cbn [elapsed]. specialize (Hstep n). lia.
Qed.

Lemma first_overrun (env : Env) (interval limit : Z) (n : nat) :
  (forall k, (k < n)%nat -> elapsed env interval k < limit)
  \/ exists K, (K < n)%nat
               /\ limit <= elapsed env interval K
               /\ forall k, (k < K)%nat -> elapsed env interval k < limit.
Proof.
  induction n as [|n [IH | (K & HK & Hover & Hbefore)]].
  - left. intros k Hk. lia.
  - destruct (Z_lt_le_dec (elapsed env interval n) limit) as [Hn | Hn].
    + left. intros k Hk.
      destruct (Nat.eq_dec k n) as [-> | Hne]; [exact Hn|apply IH; lia].
    + right. exists n. repeat split; [lia|exact Hn|exact IH].
  - right. exists K. repeat split; [lia|exact Hover|exact Hbefore].
Qed.

(** With a job that never completes and a clock that advances by at least
    a millisecond per round, [createJob] ends, and ends with the timeout
    error, for every amount of fuel above the timeout in milliseconds. *)
Theorem createJob_times_out_when_clock_advances :
  forall (env : Env) (fuel : nat) (p : Params) (apiKey : jsstring) (t0 : Z)
         (data : IncubateResponse.t) (w1 : World),
    waitForCompletion p = true ->
    submit env p apiKey (initial t0) = (Returned data, w1) ->
    (forall k, exists j,
       jobReply env k = Resolved j /\ Job.isCompleted j = false) ->
    (forall k,
       1 <= fetchTime env k
            + sleepTime env k
                (orNum (pollingInterval (pollingOptions p)) 5 * 1000)) ->
    (Z.to_nat (orNum (timeout (pollingOptions p)) 600 * 1000) < fuel)%nat ->
    exists K,
      (K < fuel)%nat
      /\ createJob env fuel p apiKey (initial t0)
         = (Thrown
              (NodeOperationError
                 (timeoutMessage (IncubateResponse.vesselId data)
                                 (pollingOptions p))),
            atRound env (IncubateResponse.vesselId data) apiKey
                    (orNum (pollingInterval (pollingOptions p)) 5 * 1000)
                    (now w1) (trace w1) K).
Proof.
  intros env fuel p apiKey t0 data w1 Hwait Hsubmit Hjobs Hstep Hfuel.
  set (interval := orNum (pollingInterval (pollingOptions p)) 5 * 1000) in *.
  set (limit := orNum (timeout (pollingOptions p)) 600 * 1000) in *.
  destruct (first_overrun env interval limit (S (Z.to_nat limit)))
    as [Hall | (K & HK & Hover & Hbefore)].
  - pose proof (elapsed_grows env interval Hstep (Z.to_nat limit)) as Hgrow.
    specialize (Hall (Z.to_nat limit) (Nat.lt_succ_diag_r _)). lia.
  - exists K. split; [lia|].
    apply createJob_overrun; trivial. lia.
Qed.

Lemma createJob_times_out_when_clock_advances_witness :
  exists K,
    (K < 3001)%nat
    /\ createJob stalling 3001 scenario (str "ak_live") (initial 1000)
       = (Thrown
            (NodeOperationError
               (timeoutMessage (str "job-1") (pollingOptions scenario))),
          atRound stalling (str "job-1") (str "ak_live") 1000
                  (now (snd (submit stalling scenario (str "ak_live")
                                    (initial 1000))))
                  (trace (snd (submit stalling scenario (str "ak_live")
                                      (initial 1000))))
                  K).
Proof.
  apply (createJob_times_out_when_clock_advances
           stalling 3001 scenario (str "ak_live") 1000
           (accepted (str "job-1"))
           (snd (submit stalling scenario (str "ak_live") (initial 1000)))
           eq_refl eq_refl).
  - intros k. eexists; split; reflexivity.
  - intros k. discriminate.
  - apply Nat.ltb_lt. vm_compute. reflexivity.
Defined.

(* ================================================================= *)
(** ** More on [createJob]: the paths around the poll loop *)

(** X2. Without [waitForCompletion], an accepted submission is answered at
    once with the endpoint's [vesselId], [idempotencyKey], [status] and
    [scheduledFor]: whatever the polling options and the iteration bound,
    no status is fetched and no timer is awaited. *)
Theorem createJob_without_waiting_never_polls :
  forall (env : Env) (fuel : nat) (p : Params) (apiKey : jsstring) (w : World)
         (h : jsstring) (data : IncubateResponse.t),
    waitForCompletion p = false ->
    hmacKeyReply env = Resolved h ->
    incubateReply env = Resolved data ->
    truthyStr (IncubateResponse.error data) = false ->
    truthyStr (IncubateResponse.message data) = false ->
    fst (createJob env fuel p apiKey w)
    = Returned
        [(str "jobId", VStr (IncubateResponse.vesselId data));
         (str "idempotencyKey", VStr (IncubateResponse.idempotencyKey data));
         (str "status", VStr (IncubateResponse.status data));
         (str "scheduledFor", optStr (IncubateResponse.scheduledFor data))]
    /\ fetches (snd (createJob env fuel p apiKey w)) = fetches w
    /\ sleeps (snd (createJob env fuel p apiKey w)) = sleeps w
    /\ List.length (trace (snd (createJob env fuel p apiKey w)))
       = (List.length (trace w) + 2)%nat.
Proof.
  intros env fuel p apiKey w h data Hwait Hh Hi He Hm.
  pose proof (submit_accepts_without_embedded_error
                env p apiKey w h data Hh Hi He Hm) as Hfst.
  destruct (submit env p apiKey w) as [o w1] eqn:Hsubmit.
  simpl in Hfst. subst o.
  destruct (submit_world _ _ _ _ _ _ Hsubmit) as (Hf & Hs & body & Htrace).
  unfold createJob, bind. rewrite Hsubmit, Hwait. simpl.
  repeat split; trivial.
  rewrite Htrace, length_app. reflexivity.
Qed.

Lemma createJob_without_waiting_never_polls_witness :
  fst (createJob stalling 0 (unset (str "proj") (str "hello") false)
                 (str "ak_live") (initial 1000))
  = Returned
      [(str "jobId", VStr (str "job-1"));
       (str "idempotencyKey", VStr (str "key-1"));
       (str "status", VStr (str "PENDING"));
       (str "scheduledFor", VUndefined)]
  /\ fetches (snd (createJob stalling 0 (unset (str "proj") (str "hello") false)
                             (str "ak_live") (initial 1000))) = 0%nat.
Proof.
  destruct (createJob_without_waiting_never_polls
              stalling 0 (unset (str "proj") (str "hello") false)
              (str "ak_live") (initial 1000) (str "hmac-secret")
              (accepted (str "job-1")) eq_refl eq_refl eq_refl eq_refl eq_refl)
    as (Hr & Hf & _).
  split; [exact Hr|exact Hf].
Defined.

(** X3. A failed request for the signing secret makes [createJob] throw
    that failure with the execution endpoint never contacted; a failed
    request to the execution endpoint makes it throw that failure with no
    status fetched. Nothing is retried. *)
Theorem createJob_propagates_submission_failures :
  forall (env : Env) (fuel : nat) (p : Params) (apiKey : jsstring) (w : World)
         (reason : jsstring),
    (hmacKeyReply env = Rejected reason ->
     createJob env fuel p apiKey w
     = (Thrown (RequestError reason),
        mkWorld (now w + callTime env (hmacKeyRequest (projectId p) apiKey))
                (fetches w) (sleeps w)
                (trace w ++ [Requested (hmacKeyRequest (projectId p) apiKey)])))
    /\ (forall h,
          hmacKeyReply env = Resolved h ->
          incubateReply env = Rejected reason ->
          fst (createJob env fuel p apiKey w) = Thrown (RequestError reason)
          /\ fetches (snd (createJob env fuel p apiKey w)) = fetches w
          /\ sleeps (snd (createJob env fuel p apiKey w)) = sleeps w
          /\ List.length (trace (snd (createJob env fuel p apiKey w)))
             = (List.length (trace w) + 2)%nat).
Proof.
  intros env fuel p apiKey w reason. split.
  - intros Hh. unfold createJob, submit, getHmacKey, request, bind.
    now rewrite Hh.
  - intros h Hh Hi.
    unfold createJob, submit, getHmacKey, chooseIdempotencyKey, request, bind.
    rewrite Hh; simpl.
    destruct (idempotencyKey (advancedOptions p)) as [[|c r]|]; simpl;
      rewrite Hi; simpl; rewrite !length_app; simpl;
      repeat split; lia.
Qed.

Section MorePolling.

Variable env : Env.
Variables vesselId apiKey : jsstring.
Variables interval limit start : Z.
Variable before : list Event.

Local Abbreviation atRound :=
  (atRound env vesselId apiKey interval start before).

Lemma poll_rejected (fuel k : nat) (reason : jsstring) :
  jobReply env k = Rejected reason ->
  elapsed env interval k < limit ->
  poll env (S fuel) vesselId apiKey interval limit start (atRound k)
  = (Thrown (RequestError reason),
     mkWorld (start + elapsed env interval k + fetchTime env k) (S k) k
             (before ++ rounds k vesselId apiKey interval
              ++ [Requested (getJobRequest vesselId apiKey)])).
Proof.
  intros Hreply Htime.
  apply Z.ltb_lt in Htime.
  cbn [poll]. unfold bind, dateNow, getJob, ret.
  unfold atRound. cbn [now fetches sleeps trace].
  replace (start + elapsed env interval k - start)
    with (elapsed env interval k) by lia.
  rewrite Htime. cbn [now fetches sleeps trace].
  rewrite Hreply. cbn [settle]. unfold throw.
  now rewrite <- app_assoc.
Qed.



End MorePolling.


(** X4. With [waitForCompletion], after an accepted submission, a status
    fetch that fails makes [createJob] throw that failure at once: the
    fetch is not retried, no timer follows, and the fetches made are those
    up to the failed one. *)
Theorem createJob_propagates_fetch_failure :
  forall (env : Env) (fuel : nat) (p : Params) (apiKey : jsstring) (t0 : Z)
         (data : IncubateResponse.t) (w1 : World) (N : nat)
         (reason : jsstring),
    waitForCompletion p = true ->
    submit env p apiKey (initial t0) = (Returned data, w1) ->
    (forall k, (k < N)%nat ->
       exists j, jobReply env k = Resolved j /\ Job.isCompleted j = false) ->
    jobReply env N = Rejected reason ->
    (forall k, (k <= N)%nat ->
       elapsed env (orNum (pollingInterval (pollingOptions p)) 5 * 1000) k
       < orNum (timeout (pollingOptions p)) 600 * 1000) ->
    (N < fuel)%nat ->
    createJob env fuel p apiKey (initial t0)
    = (Thrown (RequestError reason),
       mkWorld
         (now w1
          + elapsed env (orNum (pollingInterval (pollingOptions p)) 5 * 1000) N
          + fetchTime env N)
         (S N) N
         (trace w1
          ++ rounds N (IncubateResponse.vesselId data) apiKey
                    (orNum (pollingInterval (pollingOptions p)) 5 * 1000)
          ++ [Requested
                (getJobRequest (IncubateResponse.vesselId data) apiKey)])).
Proof.
  intros env fuel p apiKey t0 data w1 N reason
         Hwait Hsubmit Hjobs Hreply Htime Hfuel.
  rewrite (createJob_waiting env fuel p apiKey t0 data w1 Hwait Hsubmit).
  replace fuel with (N + S (fuel - S N))%nat by lia.
  rewrite poll_rounds; [|exact Hjobs|intros; apply Htime; lia].
  rewrite (poll_rejected _ _ _ _ _ _ _ _ N reason Hreply);
    [reflexivity|apply Htime; lia].
Qed.

(** A job source whose second fetch fails. *)
Lemma createJob_propagates_fetch_failure_witness :
  fst (createJob
         (scripted (Resolved (accepted (str "job-1")))
            (fun k => if (k =? 1)%nat then Rejected (str "ECONNRESET")
                      else neverFinishes k) [])
         10 scenario (str "ak_live") (initial 1000))
  = Thrown (RequestError (str "ECONNRESET"))
  /\ fetches
       (snd (createJob
               (scripted (Resolved (accepted (str "job-1")))
                  (fun k => if (k =? 1)%nat then Rejected (str "ECONNRESET")
                            else neverFinishes k) [])
               10 scenario (str "ak_live") (initial 1000)))
     = 2%nat.
Proof.
  pose proof
    (createJob_propagates_fetch_failure
       (scripted (Resolved (accepted (str "job-1")))
          (fun k => if (k =? 1)%nat then Rejected (str "ECONNRESET")
                    else neverFinishes k) [])
       10 scenario (str "ak_live") 1000 (accepted (str "job-1"))
       (snd (submit
               (scripted (Resolved (accepted (str "job-1")))
                  (fun k => if (k =? 1)%nat then Rejected (str "ECONNRESET")
                            else neverFinishes k) [])
               scenario (str "ak_live") (initial 1000)))
       1 (str "ECONNRESET") eq_refl eq_refl) as H.
  rewrite H.
  - split; reflexivity.
  - intros k Hk. destruct k as [|k]; [|lia]. eexists; split; reflexivity.
  - reflexivity.
  - intros k Hk. destruct k as [|[|k]]; [| |lia]; reflexivity.
  - lia.
Defined.

(** X5. When [createJob] times out after at least one round, the error is
    thrown no earlier than the timeout and less than one round (the last
    fetch and the timer after it) later. *)
Theorem createJob_times_out_within_one_round :
  forall (env : Env) (fuel : nat) (p : Params) (apiKey : jsstring) (t0 : Z)
         (data : IncubateResponse.t) (w1 : World) (K : nat),
    waitForCompletion p = true ->
    submit env p apiKey (initial t0) = (Returned data, w1) ->
    (forall k, exists j,
       jobReply env k = Resolved j /\ Job.isCompleted j = false) ->
    (forall k, (k <= K)%nat ->
       elapsed env (orNum (pollingInterval (pollingOptions p)) 5 * 1000) k
       < orNum (timeout (pollingOptions p)) 600 * 1000) ->
    orNum (timeout (pollingOptions p)) 600 * 1000
    <= elapsed env (orNum (pollingInterval (pollingOptions p)) 5 * 1000) (S K) ->
    (S K < fuel)%nat ->
    orNum (timeout (pollingOptions p)) 600 * 1000
    <= now (snd (createJob env fuel p apiKey (initial t0))) - now w1
    /\ now (snd (createJob env fuel p apiKey (initial t0))) - now w1
       < orNum (timeout (pollingOptions p)) 600 * 1000
         + fetchTime env K
         + sleepTime env K
             (orNum (pollingInterval (pollingOptions p)) 5 * 1000).
Proof.
  intros env fuel p apiKey t0 data w1 K
         Hwait Hsubmit Hjobs Htime Hover Hfuel.
  rewrite (createJob_overrun env fuel p apiKey t0 data w1 (S K)
             Hwait Hsubmit Hjobs); trivial.
  2:{ intros k Hk. apply Htime. lia. }
  unfold atRound. cbn [snd now]. cbn [elapsed] in *.
  specialize (Htime K (le_n K)). lia.
Qed.

Lemma createJob_times_out_within_one_round_witness :
  3000 <= now (snd (createJob stalling 10 scenario (str "ak_live")
                              (initial 1000)))
          - now (snd (submit stalling scenario (str "ak_live") (initial 1000)))
  /\ now (snd (createJob stalling 10 scenario (str "ak_live") (initial 1000)))
     - now (snd (submit stalling scenario (str "ak_live") (initial 1000)))
     < 3000 + 100 + 1000.
Proof.
  apply (createJob_times_out_within_one_round
           stalling 10 scenario (str "ak_live") 1000 (accepted (str "job-1"))
           (snd (submit stalling scenario (str "ak_live") (initial 1000)))
           2 eq_refl eq_refl).
  - intros k. eexists; split; reflexivity.
  - intros k Hk. destruct k as [|[|[|k]]]; [| | |lia]; reflexivity.
  - discriminate.
  - lia.
Defined.

(** X6. A negative timeout lets the submission go out and then fails it:
    [createJob] throws the timeout error straight after the execution
    endpoint accepted the job, without a single status fetch or timer,
    whatever the job source would have answered. *)
Theorem createJob_negative_timeout_fails_after_submitting :
  forall (env : Env) (fuel : nat) (p : Params) (apiKey : jsstring) (t0 : Z)
         (data : IncubateResponse.t) (w1 : World) (seconds : Z),
    waitForCompletion p = true ->
    submit env p apiKey (initial t0) = (Returned data, w1) ->
    timeout (pollingOptions p) = Some seconds ->
    seconds < 0 ->
    (0 < fuel)%nat ->
    createJob env fuel p apiKey (initial t0)
    = (Thrown
         (NodeOperationError
            (str "Job " ++ IncubateResponse.vesselId data
             ++ str " did not complete within "
             ++ numberToString seconds ++ str " seconds")),
       w1).
Proof.
  intros env fuel p apiKey t0 data w1 seconds
         Hwait Hsubmit Hlimit Hneg Hfuel.
  destruct (submit_world _ _ _ _ _ _ Hsubmit) as (Hf & Hs & _).
  assert (Hor : orNum (timeout (pollingOptions p)) 600 = seconds).
  { rewrite Hlimit. simpl. destruct (Z.eqb_spec seconds 0); [lia|reflexivity]. }
  rewrite (createJob_waiting env fuel p apiKey t0 data w1 Hwait Hsubmit).
  destruct fuel as [|fuel]; [lia|].
  rewrite poll_overrun by (rewrite Hor; simpl; lia).
  unfold timeoutMessage. rewrite Hor.
  now rewrite <- (fresh_world_atRound env _ apiKey _ w1 Hf Hs).
Qed.

Lemma createJob_negative_timeout_fails_after_submitting_witness :
  fst (createJob finishing 10
         (withPolling (mkPollingOptions None (Some (-1))) scenario)
         (str "ak_live") (initial 1000))
  = Thrown (NodeOperationError
              (str "Job job-1 did not complete within -1 seconds"))
  /\ fetches (snd (createJob finishing 10
                     (withPolling (mkPollingOptions None (Some (-1))) scenario)
                     (str "ak_live") (initial 1000))) = 0%nat
  /\ List.length
       (trace (snd (createJob finishing 10
                      (withPolling (mkPollingOptions None (Some (-1))) scenario)
                      (str "ak_live") (initial 1000)))) = 2%nat.
Proof.
  rewrite (createJob_negative_timeout_fails_after_submitting
             finishing 10
             (withPolling (mkPollingOptions None (Some (-1))) scenario)
             (str "ak_live") 1000 (accepted (str "job-1"))
             (snd (submit finishing
                     (withPolling (mkPollingOptions None (Some (-1))) scenario)
                     (str "ak_live") (initial 1000)))
             (-1) eq_refl eq_refl eq_refl eq_refl (Nat.lt_0_succ 9)).
  repeat split.
Defined.





(* ================================================================= *)
(** ** More on the job request builder *)

Lemma keyIn_In (k : jsstring) (ks : list jsstring) :
  keyIn k ks = true <-> In k ks.
Proof.
  induction ks as [|k' r IH]; simpl; [split; [discriminate|tauto]|].
  rewrite orb_true_iff, IH, jsstring_eqb_eq. intuition.
Qed.

Lemma distinctKeys_NoDup (ks : list jsstring) :
  distinctKeys ks = true -> NoDup ks.
Proof.
  induction ks as [|k r IH]; simpl; intros H; [constructor|].
  apply andb_true_iff in H as [Hk Hr]. constructor; [|auto].
  intros Hin. apply keyIn_In in Hin. now rewrite Hin in Hk.
Qed.

(** X9. The request always names a model, and never an empty one: the
    selected model, the fixed default when none is selected, the custom
    model string when [custom] is selected and the string is non-empty,
    and the literal [custom] when it is selected with no custom string. A
    custom model string is ignored unless [custom] is selected. *)
Theorem request_model_is_never_empty :
  forall (p : Params) (token key : jsstring),
    optionOf "model" (requestBody p token key)
    = Some (VStr (selectModel (modelOptions p)))
    /\ selectModel (modelOptions p) <> []
    /\ (truthyStr (model (modelOptions p)) = false ->
        selectModel (modelOptions p) = str "claude-sonnet-4-5-20250929")
    /\ (model (modelOptions p) = Some (str "custom") ->
        truthyStr (customModel (modelOptions p)) = false ->
        selectModel (modelOptions p) = str "custom")
    /\ (forall c,
          model (modelOptions p) = Some (str "custom") ->
          customModel (modelOptions p) = Some c -> c <> [] ->
          selectModel (modelOptions p) = c)
    /\ (forall x,
          model (modelOptions p) = Some x -> x <> [] -> x <> str "custom" ->
          selectModel (modelOptions p) = x).
Proof.
  intros p token key.
  split; [rewrite optionOf_requestBody; reflexivity|].
  unfold selectModel.
  destruct (modelOptions p) as [mo cm sp mt fmt]; cbn [model customModel].
  split; [|split; [|split; [|split]]].
  - destruct mo as [[|x xs]|]; cbn [orStr];
      try (destruct cm as [[|c cs]|]; cbn; discriminate).
    destruct (jsstring_eqb (x :: xs) (str "custom"));
      [destruct cm as [[|c cs]|]|]; discriminate.
  - intros H. destruct mo as [[|x xs]|]; try discriminate; reflexivity.
  - intros -> H. destruct cm as [[|c cs]|]; try discriminate; reflexivity.
  - intros c -> -> Hc. destruct c; [now elim Hc|reflexivity].
  - intros x -> Hx Hcustom. destruct x as [|x xs]; [now elim Hx|].
    cbn [orStr].
    destruct (jsstring_eqb (x :: xs) (str "custom")) eqn:E; [|reflexivity].
    apply jsstring_eqb_eq in E. now elim Hcustom.
Qed.

Lemma optionOf_permission (p : Params) (token key : jsstring) :
  optionOf "permissionMode" (requestBody p token key)
  = match permissionMode (toolOptions p) with
    | Some (c :: r) =>
        if jsstring_eqb (c :: r) (str "default") then None
        else Some (VStr (c :: r))
    | _ => None
    end
  /\ optionOf "allowDangerouslySkipPermissions" (requestBody p token key)
     = match permissionMode (toolOptions p) with
       | Some (c :: r) =>
           if jsstring_eqb (c :: r) (str "default") then None
           else Some (VBool (jsstring_eqb (c :: r) (str "bypassPermissions")))
       | _ => None
       end.
Proof.
  rewrite !optionOf_requestBody. split.
  - skip_other_keys. rewrite lookup_spreadStr.
    destruct (permissionMode (toolOptions p)) as [[|c r]|]; try reflexivity.
    rewrite lookup_spreadIf.
    now destruct (jsstring_eqb (c :: r) (str "default")).
  - skip_other_keys. rewrite lookup_spreadStr.
    destruct (permissionMode (toolOptions p)) as [[|c r]|]; try reflexivity.
    rewrite lookup_spreadIf.
    now destruct (jsstring_eqb (c :: r) (str "default")).
Qed.

Lemma jsstring_eqb_neq (a b : jsstring) :
  jsstring_eqb a b = false -> a <> b.
Proof.
  intros H E. apply jsstring_eqb_eq in E. congruence.
Qed.

Ltac mode_cases :=
  repeat split; intros;
  repeat match goal with H : _ \/ _ |- _ => destruct H end;
  try discriminate; try reflexivity; auto; try congruence.

(** X10. The request allows skipping permissions exactly when the
    permission mode is [bypassPermissions]. The flag and the mode are sent
    together or not at all, and they are left out exactly when the mode is
    unset, empty or [default]. *)
Theorem dangerous_skip_only_with_bypassPermissions :
  forall (p : Params) (token key : jsstring),
    (optionOf "allowDangerouslySkipPermissions" (requestBody p token key)
     = Some (VBool true)
     <-> permissionMode (toolOptions p) = Some (str "bypassPermissions"))
    /\ (optionOf "permissionMode" (requestBody p token key) = None
        <-> optionOf "allowDangerouslySkipPermissions" (requestBody p token key)
            = None)
    /\ (optionOf "permissionMode" (requestBody p token key) = None
        <-> truthyStr (permissionMode (toolOptions p)) = false
            \/ permissionMode (toolOptions p) = Some (str "default")).
Proof.
  intros p token key.
  destruct (optionOf_permission p token key) as [-> ->].
  destruct (permissionMode (toolOptions p)) as [[|c r]|]; cbn [truthyStr];
    [mode_cases| |mode_cases].
  destruct (jsstring_eqb (c :: r) (str "default")) eqn:Ed;
    [apply jsstring_eqb_eq in Ed; rewrite Ed; mode_cases|].
  apply jsstring_eqb_neq in Ed.
  destruct (jsstring_eqb (c :: r) (str "bypassPermissions")) eqn:Eb;
    [apply jsstring_eqb_eq in Eb; rewrite Eb in *; mode_cases|].
  apply jsstring_eqb_neq in Eb. mode_cases.
Qed.

(** *** Comma-separated lists *)

Lemma splitOn_cons (sep c : N) (s : jsstring) :
  exists seg segs,
    splitOn sep s = seg :: segs
    /\ splitOn sep (c :: s)
       = if N.eqb c sep then [] :: seg :: segs else (c :: seg) :: segs.
Proof.
  destruct s as [|x s]; cbn [splitOn].
  - exists [], []. now destruct (N.eqb c sep).
  - destruct (N.eqb x sep).
    + eexists _, _. split; [reflexivity|]. now destruct (N.eqb c sep).
    + destruct (splitOn sep s) as [|seg segs];
        eexists _, _; (split; [reflexivity|]); now destruct (N.eqb c sep).
Qed.

Lemma splitOn_length (sep : N) (s : jsstring) :
  List.length (splitOn sep s) = S (occurrences sep s).
Proof.
  induction s as [|c s IH]; [reflexivity|].
  destruct (splitOn_cons sep c s) as (seg & segs & Hs & ->).
  rewrite Hs in IH. cbn [occurrences].
  destruct (N.eqb c sep); simpl in *; lia.
Qed.

Lemma splitOn_segments (sep : N) (s : jsstring) :
  Forall (fun seg => occurrences sep seg = 0%nat) (splitOn sep s).
Proof.
  induction s as [|c s IH]; [repeat constructor|].
  destruct (splitOn_cons sep c s) as (seg & segs & Hs & ->).
  rewrite Hs in IH. inversion IH as [|? ? Hseg Hsegs]; subst.
  destruct (N.eqb c sep) eqn:E.
  - constructor; [reflexivity|]. now constructor.
  - constructor; [|exact Hsegs]. cbn [occurrences]. now rewrite E.
Qed.

Lemma joinWith_cons (sep : N) (a b : jsstring) (r : list jsstring) :
  joinWith sep (a :: b :: r) = a ++ sep :: joinWith sep (b :: r).
Proof. reflexivity. Qed.

Lemma joinWith_splitOn (sep : N) (s : jsstring) :
  joinWith sep (splitOn sep s) = s.
Proof.
  induction s as [|c s IH]; [reflexivity|].
  destruct (splitOn_cons sep c s) as (seg & segs & Hs & ->).
  rewrite Hs in IH.
  destruct (N.eqb_spec c sep) as [->|Hne].
  - rewrite joinWith_cons, IH. reflexivity.
  - destruct segs as [|b r].
    + simpl in *. now rewrite IH.
    + rewrite joinWith_cons in *. cbn [app]. now rewrite IH.
Qed.

Lemma trimStart_suffix (s : jsstring) :
  exists spaces, s = spaces ++ trimStart s.
Proof.
  induction s as [|c s (spaces & IH)]; [now exists []|].
  cbn [trimStart]. destruct (isWhiteSpace c).
  - exists (c :: spaces). cbn [app]. now rewrite <- IH.
  - now exists [].
Qed.

Lemma trimStart_startsClean (s : jsstring) : startsClean (trimStart s) = true.
Proof.
  induction s as [|c s IH]; [reflexivity|].
  cbn [trimStart]. destruct (isWhiteSpace c) eqn:E; [exact IH|].
  cbn [startsClean]. now rewrite E.
Qed.

Lemma occurrences_app (c : N) (a b : jsstring) :
  occurrences c (a ++ b) = (occurrences c a + occurrences c b)%nat.
Proof.
  induction a as [|x a IH]; [reflexivity|].
  cbn [app occurrences]. rewrite IH. lia.
Qed.

Lemma occurrences_rev (c : N) (s : jsstring) :
  occurrences c (rev s) = occurrences c s.
Proof.
  induction s as [|x s IH]; [reflexivity|].
  cbn [rev]. rewrite occurrences_app, IH. cbn [occurrences]. lia.
Qed.

Lemma occurrences_trimStart (c : N) (s : jsstring) :
  (occurrences c (trimStart s) <= occurrences c s)%nat.
Proof.
  destruct (trimStart_suffix s) as (spaces & E).
  rewrite E at 2. rewrite occurrences_app. lia.
Qed.

Lemma occurrences_trim (c : N) (s : jsstring) :
  (occurrences c (trim s) <= occurrences c s)%nat.
Proof.
  unfold trim. rewrite occurrences_rev.
  pose proof (occurrences_trimStart c (rev (trimStart s))) as H1.
  rewrite occurrences_rev in H1.
  pose proof (occurrences_trimStart c s). lia.
Qed.

(** The first code unit of a non-empty prefix is that of the whole. *)
Lemma startsClean_prefix (a b : jsstring) :
  startsClean (a ++ b) = true -> a <> [] -> startsClean a = true.
Proof. destruct a; [intros _ H; now elim H|trivial]. Qed.

Lemma trim_edgesClean (s : jsstring) : edgesClean (trim s) = true.
Proof.
  unfold edgesClean, trim. rewrite rev_involutive.
  rewrite trimStart_startsClean, andb_true_r.
  destruct (trimStart_suffix (rev (trimStart s))) as (spaces & E).
  apply (f_equal (@rev N)) in E. rewrite rev_involutive, rev_app_distr in E.
  destruct (rev (trimStart (rev (trimStart s)))) as [|c r] eqn:Er;
    [reflexivity|].
  pose proof (trimStart_startsClean s) as Hclean.
  rewrite E in Hclean. exact Hclean.
Qed.

Lemma splitTrim_names (s : jsstring) :
  List.length (splitTrim s) = S (occurrences comma s)
  /\ Forall (fun name => occurrences comma name = 0%nat
                         /\ edgesClean name = true) (splitTrim s).
Proof.
  unfold splitTrim. rewrite length_map, splitOn_length. split; [reflexivity|].
  apply Forall_map. eapply Forall_impl; [|apply splitOn_segments].
  intros seg Hseg. cbv beta in *. split; [|apply trim_edgesClean].
  pose proof (occurrences_trim comma seg) as Hle.
  rewrite Hseg in Hle. now apply Nat.le_0_r.
Qed.

(** X11. The allowed and the disallowed tool list are never read as JSON:
    a non-empty string is cut at its commas, whatever it contains, and an
    empty or unset one sends no list. The names sent are one more than the
    commas of the string (empty names are kept), none contains a comma and
    none starts or ends with white space. The same holds for the [tools]
    string when it is not valid JSON. *)
Theorem tool_lists_are_comma_separated_names :
  forall (p : Params) (token key : jsstring),
    (forall s,
       allowedTools (toolOptions p) = Some s -> s <> [] ->
       optionOf "allowedTools" (requestBody p token key)
       = Some (strings (splitTrim s)))
    /\ (forall s,
          disallowedTools (toolOptions p) = Some s -> s <> [] ->
          optionOf "disallowedTools" (requestBody p token key)
          = Some (strings (splitTrim s)))
    /\ (truthyStr (allowedTools (toolOptions p)) = false ->
        optionOf "allowedTools" (requestBody p token key) = None)
    /\ (truthyStr (disallowedTools (toolOptions p)) = false ->
        optionOf "disallowedTools" (requestBody p token key) = None)
    /\ (forall s,
          List.length (splitTrim s) = S (occurrences comma s)
          /\ Forall (fun name => occurrences comma name = 0%nat
                                 /\ edgesClean name = true) (splitTrim s)).
Proof.
  intros p token key.
  assert (Ha : optionOf "allowedTools" (requestBody p token key)
               = match allowedTools (toolOptions p) with
                 | Some (c :: r) => Some (strings (splitTrim (c :: r)))
                 | _ => None
                 end).
  { rewrite optionOf_requestBody. skip_other_keys.
    rewrite lookup_spreadStr.
    now destruct (allowedTools (toolOptions p)) as [[|c r]|]. }
  assert (Hd : optionOf "disallowedTools" (requestBody p token key)
               = match disallowedTools (toolOptions p) with
                 | Some (c :: r) => Some (strings (splitTrim (c :: r)))
                 | _ => None
                 end).
  { rewrite optionOf_requestBody. skip_other_keys.
    rewrite lookup_spreadStr.
    now destruct (disallowedTools (toolOptions p)) as [[|c r]|]. }
  rewrite Ha, Hd. split; [|split; [|split; [|split]]].
  - intros s -> Hs. destruct s; [now elim Hs|reflexivity].
  - intros s -> Hs. destruct s; [now elim Hs|reflexivity].
  - destruct (allowedTools (toolOptions p)) as [[|c r]|];
      try discriminate; reflexivity.
  - destruct (disallowedTools (toolOptions p)) as [[|c r]|];
      try discriminate; reflexivity.
  - apply splitTrim_names.
Qed.

(** Cutting a string at its commas loses nothing: joining the
    segments with commas gives the string back, there is one segment more
    than commas, and no segment contains a comma. *)
Theorem split_join_round_trip :
  forall s : jsstring,
    joinWith comma (splitOn comma s) = s
    /\ List.length (splitOn comma s) = S (occurrences comma s)
    /\ Forall (fun seg => occurrences comma seg = 0%nat) (splitOn comma s).
Proof.
  intros s. split; [apply joinWith_splitOn|].
  split; [apply splitOn_length|apply splitOn_segments].
Qed.

(** *** The shape of the request body *)

(** X12. The request body has the members [message], [idempotencyKey] and
    [options], then [ttl] exactly when the configured delay is positive,
    then [callback] exactly when a callback URL is given, each once. The
    message is sent as it is, an empty one included. A callback secret
    given without a callback URL is not sent at all: the body is the one
    built without the secret. *)
Theorem requestBody_members :
  forall (p : Params) (token key : jsstring),
    keys (requestBody p token key)
    = [str "message"; str "idempotencyKey"; str "options"]
      ++ match ttl (advancedOptions p) with
         | Some n => if 0 <? n then [str "ttl"] else []
         | None => []
         end
      ++ (if truthyStr (callbackUrl (callbackOptions p))
          then [str "callback"] else [])
    /\ NoDup (keys (requestBody p token key))
    /\ lookup (str "message") (requestBody p token key)
       = Some (VStr (message p))
    /\ (forall url secret,
          callbackOptions p = mkCallbackOptions (Some url) secret ->
          url <> [] ->
          lookup (str "callback") (requestBody p token key)
          = Some (VObj ((str "url", VStr url)
                        :: match secret with
                           | Some (c :: r) => [(str "secret", VStr (c :: r))]
                           | _ => []
                           end)))
    /\ (forall pid msg wait po mo t a secret,
          requestBody (mkParams pid msg wait po mo t
                         (mkCallbackOptions None secret) a) token key
          = requestBody (mkParams pid msg wait po mo t
                           (mkCallbackOptions None None) a) token key).
Proof.
  intros p token key.
  assert (Hkeys :
    keys (requestBody p token key)
    = [str "message"; str "idempotencyKey"; str "options"]
      ++ match ttl (advancedOptions p) with
         | Some n => if 0 <? n then [str "ttl"] else []
         | None => []
         end
      ++ (if truthyStr (callbackUrl (callbackOptions p))
          then [str "callback"] else [])).
  { unfold requestBody.
    destruct (ttl (advancedOptions p)) as [n|].
    - destruct (Z.ltb_spec 0 n) as [Hpos|Hnpos];
        destruct (Z.eqb_spec n 0) as [Hz|Hnz]; try lia; cbn [negb andb];
        destruct (callbackUrl (callbackOptions p)) as [[|u rl]|]; reflexivity.
    - destruct (callbackUrl (callbackOptions p)) as [[|u rl]|]; reflexivity. }
  split; [exact Hkeys|]. split; [|split; [|split]].
  - rewrite Hkeys. apply distinctKeys_NoDup.
    destruct (ttl (advancedOptions p)) as [n|]; [destruct (0 <? n)|];
      destruct (truthyStr (callbackUrl (callbackOptions p))); reflexivity.
  - unfold requestBody.
    destruct (callbackUrl (callbackOptions p)) as [[|u rl]|];
      destruct (ttl (advancedOptions p)) as [n|];
      try destruct (negb (n =? 0) && (0 <? n));
      rewrite ?lookup_setProp; reflexivity.
  - intros url secret Hc Hurl. unfold requestBody. rewrite Hc.
    cbn [callbackUrl callbackSecret].
    destruct url as [|u rl]; [now elim Hurl|].
    rewrite lookup_setProp. cbn [jsstring_eqb].
    rewrite jsstring_eqb_refl.
    now destruct secret as [[|c r]|].
  - intros. reflexivity.
Qed.

Lemma requestOptions_keys (p : Params) (token : jsstring) :
  distinctKeys (keys (requestOptions p token)) = true.
Proof.
  unfold requestOptions, keys. cbv zeta.
  generalize (selectModel (modelOptions p)).
  generalize (truthy (parsedOutputFormat (modelOptions p))
              && (0 <? keysLength (parsedOutputFormat (modelOptions p)))%nat).
  generalize (parsedOutputFormat (modelOptions p)).
  generalize (negb (isUndefined (toolsValue (toolOptions p)))).
  generalize (toolsValue (toolOptions p)).
  intros tv hasTools fmt hasFormat chosen.
  destruct (systemPrompt (modelOptions p)) as [[|c1 r1]|];
    (destruct (maxTurns (modelOptions p)) as [n|];
     [cbn [spreadNum]; destruct (n =? 0)|]);
    destruct hasFormat; destruct hasTools;
    destruct (allowedTools (toolOptions p)) as [[|c2 r2]|];
    destruct (disallowedTools (toolOptions p)) as [[|c3 r3]|];
    (destruct (permissionMode (toolOptions p)) as [[|c4 r4]|];
     [| cbn [spreadStr];
        destruct (negb (jsstring_eqb (c4 :: r4) (str "default"))) |]);
    reflexivity.
Qed.

(** X13. No member of the request's [options] is written twice, so no
    option overrides another; [token] and [model] are always the first two
    members. *)
Theorem requestOptions_members_distinct :
  forall (p : Params) (token : jsstring),
    NoDup (keys (requestOptions p token))
    /\ exists more,
         requestOptions p token
         = (str "token", VStr token)
           :: (str "model", VStr (selectModel (modelOptions p))) :: more.
Proof.
  intros p token. split.
  - apply distinctKeys_NoDup, requestOptions_keys.
  - unfold requestOptions. cbv zeta. eexists. reflexivity.
Qed.

(** X14. The budget and the user of the signed token cannot be set to
    zero or empty: an AI budget of 0 mints the token of the default 10, a
    compute budget of 0 that of the default 1, and an empty user id that
    of [n8n-workflow], so [createJob] runs as it does with the defaults.
    The token always expires after 3600 seconds and its budget window is
    always [day]. *)
Theorem zero_budget_means_default_budget :
  forall (env : Env) (fuel : nat) (p : Params) (apiKey : jsstring) (w : World)
         (uid ik : option jsstring) (delay ai compute : option Z),
    (createJob env fuel
       (withAdvanced (mkAdvancedOptions uid ik delay (Some 0) compute) p) apiKey w
     = createJob env fuel
         (withAdvanced (mkAdvancedOptions uid ik delay (Some 10) compute) p) apiKey w)
    /\ (createJob env fuel
          (withAdvanced (mkAdvancedOptions uid ik delay None compute) p) apiKey w
        = createJob env fuel
            (withAdvanced (mkAdvancedOptions uid ik delay (Some 10) compute) p) apiKey w)
    /\ (createJob env fuel
          (withAdvanced (mkAdvancedOptions uid ik delay ai (Some 0)) p) apiKey w
        = createJob env fuel
            (withAdvanced (mkAdvancedOptions uid ik delay ai (Some 1)) p) apiKey w)
    /\ (createJob env fuel
          (withAdvanced (mkAdvancedOptions uid ik delay ai None) p) apiKey w
        = createJob env fuel
            (withAdvanced (mkAdvancedOptions uid ik delay ai (Some 1)) p) apiKey w)
    /\ (createJob env fuel
          (withAdvanced (mkAdvancedOptions (Some []) ik delay ai compute) p) apiKey w
        = createJob env fuel
            (withAdvanced
               (mkAdvancedOptions (Some (str "n8n-workflow")) ik delay ai compute)
               p) apiKey w)
    /\ (forall h,
          expiresIn (tokenOptions p h) = 3600
          /\ window (budget (tokenOptions p h)) = str "day"
          /\ secret (tokenOptions p h) = h
          /\ tokenProjectId (tokenOptions p h) = projectId p).
Proof.
  intros. repeat split.
Qed.

(* ================================================================= *)
(** ** More on the result normalizer *)

(** X15. The flat record of a job has, in this order and each once: the
    eight job fields; [success], [text] and [error] exactly when the job
    has an output (also when the output has no text or no error, as
    [undefined]); the four result fields exactly when the output has a
    result; [structuredOutput] exactly when that result has one; and
    [rawOutput] last, holding the whole output, or [undefined] without
    one. *)
Theorem flatten_members :
  forall job : Job.t,
    keys (flatten job)
    = [str "jobId"; str "status"; str "isSuccess"; str "isFailed";
       str "createdAt"; str "updatedAt"; str "startedAt"; str "finishedAt"]
      ++ match Job.output job with
         | None => []
         | Some o =>
             [str "success"; str "text"; str "error"]
             ++ match IncubateOutput.result o with
                | None => []
                | Some r =>
                    [str "resultSubtype"; str "resultText";
                     str "totalCostUsd"; str "usage"]
                    ++ (if isUndefined (SDKResult.structured_output r)
                        then [] else [str "structuredOutput"])
                end
         end
      ++ [str "rawOutput"]
    /\ NoDup (keys (flatten job))
    /\ lookup (str "rawOutput") (flatten job)
       = Some (match Job.output job with
               | Some o => outputValue o
               | None => VUndefined
               end)
    /\ (forall o,
          Job.output job = Some o ->
          lookup (str "text") (flatten job)
          = Some (optStr (IncubateOutput.text o))
          /\ lookup (str "error") (flatten job)
             = Some (optStr (IncubateOutput.error o))).
Proof.
  intros job.
  assert (Hkeys :
    keys (flatten job)
    = [str "jobId"; str "status"; str "isSuccess"; str "isFailed";
       str "createdAt"; str "updatedAt"; str "startedAt"; str "finishedAt"]
      ++ match Job.output job with
         | None => []
         | Some o =>
             [str "success"; str "text"; str "error"]
             ++ match IncubateOutput.result o with
                | None => []
                | Some r =>
                    [str "resultSubtype"; str "resultText";
                     str "totalCostUsd"; str "usage"]
                    ++ (if isUndefined (SDKResult.structured_output r)
                        then [] else [str "structuredOutput"])
                end
         end
      ++ [str "rawOutput"]).
  { unfold flatten.
    destruct (Job.output job) as [o|]; [|reflexivity].
    destruct (IncubateOutput.result o) as [r|]; [|reflexivity].
    destruct (isUndefined (SDKResult.structured_output r)); reflexivity. }
  split; [exact Hkeys|]. split; [|split].
  - rewrite Hkeys. apply distinctKeys_NoDup.
    destruct (Job.output job) as [o|]; [|reflexivity].
    destruct (IncubateOutput.result o) as [r|]; [|reflexivity].
    destruct (isUndefined (SDKResult.structured_output r)); reflexivity.
  - unfold flatten.
    destruct (Job.output job) as [o|]; [|reflexivity].
    destruct (IncubateOutput.result o) as [r|]; [|reflexivity].
    destruct (isUndefined (SDKResult.structured_output r)); reflexivity.
  - intros o Ho. unfold flatten. rewrite Ho.
    destruct (IncubateOutput.result o) as [r|]; [|split; reflexivity].
    destruct (isUndefined (SDKResult.structured_output r)); split; reflexivity.
Qed.

(** X21. Besides invalid JSON, these output formats are ignored in silence
    and the request asks for no schema: a string that decodes to [null], a
    boolean, a number, a string, an empty object or an empty array; and a
    value given directly that is not a string and is [undefined], [null],
    a boolean, a number, an empty object or an empty array. *)
Theorem outputFormat_ignored_unless_nonempty_object :
  forall (p : Params) (token key : jsstring),
    (forall s v,
       outputFormat (modelOptions p) = VStr s ->
       JSON.parse s = Some v ->
       isObject v = false \/ v = VNull \/ keysLength v = 0%nat ->
       optionOf "outputFormat" (requestBody p token key) = None)
    /\ (forall v,
          outputFormat (modelOptions p) = v ->
          typeof v <> TString ->
          isObject v = false \/ v = VNull \/ keysLength v = 0%nat ->
          optionOf "outputFormat" (requestBody p token key) = None).
Proof.
  intros p token key. split.
  - intros s v Hs Hp Hv. rewrite optionOf_outputFormat.
    unfold parsedOutputFormat. rewrite Hs. cbn [truthy].
    destruct s as [|c r]; [reflexivity|]. rewrite Hp.
    destruct Hv as [Hv | [-> | Hv]].
    + rewrite Hv, andb_false_r. reflexivity.
    + reflexivity.
    + destruct (truthy v && isObject v); [|reflexivity].
      rewrite Hv. now rewrite andb_false_r.
  - intros v Hv Hstr Hcase. rewrite optionOf_outputFormat.
    unfold parsedOutputFormat. rewrite Hv.
    destruct v as [| |b|n|s|items|fields]; cbn;
      try reflexivity; try (destruct b; reflexivity);
      try (now elim Hstr).
    + destruct (negb (mant n =? 0)); reflexivity.
    + destruct Hcase as [H | [H | H]]; try discriminate.
      destruct items; [reflexivity|discriminate].
    + destruct Hcase as [H | [H | H]]; try discriminate.
      destruct fields; [reflexivity|discriminate].
Qed.

(* ================================================================= *)
(** ** The other operations *)

(** X16. [listJobs] issues one request, to the list endpoint with the
    caller's bearer key, and hands back the reply unchanged or throws the
    request's failure. The requested page size is never zero: a limit of 0
    or no limit asks for 25. An empty status filter is sent as no filter. *)
Theorem listJobs_asks_for_a_page :
  forall (portal : Portal) (o : ListOptions) (apiKey : jsstring) (w : World),
    trace (snd (listJobs portal o apiKey w))
    = trace w ++ [Requested (listJobsRequest o apiKey)]
    /\ (forall reply, listReply portal = Resolved reply ->
                      fst (listJobs portal o apiKey w) = Returned reply)
    /\ (forall reason, listReply portal = Rejected reason ->
                       fst (listJobs portal o apiKey w)
                       = Thrown (RequestError reason))
    /\ (exists size,
          body (listJobsRequest o apiKey)
          = VObj [(str "status",
                    match status o with
                    | Some (c :: r) => VStr (c :: r)
                    | _ => VUndefined
                    end);
                  (str "size", VNum (ofZ size))]
          /\ size <> 0
          /\ (forall n, limit o = Some n -> n <> 0 -> size = n))
    /\ (forall filter,
          listJobsRequest (mkListOptions filter (Some 0)) apiKey
          = listJobsRequest (mkListOptions filter (Some 25)) apiKey
          /\ listJobsRequest (mkListOptions filter None) apiKey
             = listJobsRequest (mkListOptions filter (Some 25)) apiKey)
    /\ (forall size,
          listJobsRequest (mkListOptions (Some []) size) apiKey
          = listJobsRequest (mkListOptions None size) apiKey).
Proof.
  intros portal o apiKey w. unfold listJobs, request.
  split; [now destruct (listReply portal)|].
  split; [now intros reply ->|]. split; [now intros reason ->|].
  split; [|split; intros; [split|]; reflexivity].
  exists (orNum (limit o) 25). split; [reflexivity|]. split.
  - destruct (limit o) as [n|]; cbn [orNum]; [|discriminate].
    destruct (Z.eqb_spec n 0); [discriminate|assumption].
  - intros n -> Hn. cbn [orNum]. now destruct (Z.eqb_spec n 0).
Qed.


(** *** The item loop *)



(** The loop over a batch is the loop over its first part followed by the
    loop over the rest, from the index, the records and the world the first
    part left; what stops the first part stops the whole. *)
Lemma executeLoop_app (fuel : nat) (portalAt : nat -> Portal)
      (continueOnFail : bool) (apiKey : jsstring) (first rest : list Item.t) :
  forall (i : nat) (returnData : list NodeExecutionData.t) (w : World),
    executeLoop fuel portalAt continueOnFail apiKey i (first ++ rest)
                returnData w
    = match executeLoop fuel portalAt continueOnFail apiKey i first
                        returnData w with
      | (Returned pushed, w') =>
          executeLoop fuel portalAt continueOnFail apiKey
                      (i + List.length first) rest pushed w'
      | (Thrown e, w') => (Thrown e, w')
      | (OutOfFuel, w') => (OutOfFuel, w')
      end.
Proof.
  induction first as [|item first IH]; intros i returnData w.
  - cbn. now rewrite Nat.add_0_r.
  - cbn [app executeLoop List.length].
    replace (i + S (List.length first))%nat
      with (S i + List.length first)%nat by lia.
    destruct (runItem fuel (portalAt i) item apiKey w) as [[[result|]|e|] w'];
      try apply IH; [|reflexivity].
    destruct continueOnFail; [apply IH|reflexivity].
Qed.



Lemma executeLoop_strict (fuel : nat) (portalAt : nat -> Portal)
      (apiKey : jsstring) (items : list Item.t) :
  forall (i : nat) (returnData out : list NodeExecutionData.t) (w w' : World),
    executeLoop fuel portalAt false apiKey i items returnData w
    = (Returned out, w') ->
    exists new,
      out = returnData ++ new
      /\ (List.length new <= List.length items)%nat
      /\ Forall (fun record => NodeExecutionData.pairedItem record = None) new.
Proof.
  induction items as [|item rest IH]; intros i returnData out w w'.
  - cbn. intros H. injection H as <- _. exists []. rewrite app_nil_r.
    repeat split; trivial.
  - cbn [executeLoop].
    destruct (runItem fuel (portalAt i) item apiKey w)
      as [[[result|]|e|] w1]; try discriminate; intros H.
    + apply IH in H as (new & -> & Hlen & Hall).
      exists (NodeExecutionData.mk result None :: new).
      rewrite <- app_assoc. cbn [List.length]. repeat split; [lia|].
      now constructor.
    + apply IH in H as (new & -> & Hlen & Hall).
      exists new. cbn [List.length]. repeat split; [lia|assumption].
Qed.

(** X19. Without continue-on-fail, the first item that throws ends
    [execute] with that very error: the records of the items before it are
    not returned and the items after it are not processed, so nothing is
    awaited after the failure. A run that returns holds no error record. *)
Theorem execute_stops_at_the_first_failure :
  forall (fuel : nat) (portalAt : nat -> Portal) (apiKey : jsstring)
         (items : list Item.t) (w : World),
    (forall before item after pushed w1 e w2,
       items = before ++ item :: after ->
       execute fuel portalAt false apiKey before w = (Returned [pushed], w1) ->
       runItem fuel (portalAt (List.length before)) item apiKey w1
       = (Thrown e, w2) ->
       execute fuel portalAt false apiKey items w = (Thrown e, w2))
    /\ (forall out w',
          execute fuel portalAt false apiKey items w = (Returned out, w') ->
          exists records,
            out = [records]
            /\ (List.length records <= List.length items)%nat
            /\ Forall (fun record =>
                         NodeExecutionData.pairedItem record = None) records).
Proof.
  intros fuel portalAt apiKey items w. split.
  - intros before item after pushed w1 e w2 -> Hbefore Hitem.
    unfold execute, bind in *.
    rewrite executeLoop_app.
    destruct (executeLoop fuel portalAt false apiKey 0 before [] w)
      as [[acc| |] w0]; try discriminate.
    cbn [ret] in Hbefore. injection Hbefore as <- <-.
    cbn [executeLoop Nat.add]. now rewrite Hitem.
  - intros out w' H. unfold execute, bind in H.
    destruct (executeLoop fuel portalAt false apiKey 0 items [] w)
      as [[acc| |] w0] eqn:Hloop; try discriminate.
    cbn [ret] in H. injection H as <- _.
    apply executeLoop_strict in Hloop as (new & -> & Hlen & Hall).
    now exists new.
Qed.


Lemma execute_stops_at_the_first_failure_witness :
  fst (execute 10 samplePortals false (str "ak_live") sampleBatch (initial 0))
  = Thrown (NodeOperationError (str "boom"))
  /\ List.length
       (trace (snd (execute 10 samplePortals false (str "ak_live") sampleBatch
                            (initial 0)))) = 3%nat.
Proof.
  rewrite (proj1 (execute_stops_at_the_first_failure
                    10 samplePortals (str "ak_live") sampleBatch (initial 0))
                 [sampleItem "cancel"] (sampleItem "create")
                 [sampleItem "list"]
                 [NodeExecutionData.mk
                    (VObj [(str "success", VBool true);
                           (str "jobId", VStr (str "job-1"))]) None]
                 (snd (execute 10 samplePortals false (str "ak_live")
                               [sampleItem "cancel"] (initial 0)))
                 (NodeOperationError (str "boom"))
                 (snd (runItem 10 (samplePortals 1) (sampleItem "create")
                               (str "ak_live")
                               (snd (execute 10 samplePortals false
                                             (str "ak_live")
                                             [sampleItem "cancel"] (initial 0)))))
                 eq_refl eq_refl eq_refl).
  split; reflexivity.
Defined.


(** The same batch under continue-on-fail: the failed second item leaves
    its error record between the results of the first and the third. *)
Example execute_sample_batch_continues :
  fst (execute 10 samplePortals true (str "ak_live") sampleBatch (initial 0))
  = Returned
      [[NodeExecutionData.mk
          (VObj [(str "success", VBool true);
                 (str "jobId", VStr (str "job-1"))]) None;
        NodeExecutionData.mk (VObj [(str "error", VStr (str "boom"))]) (Some 1%nat);
        NodeExecutionData.mk (VObj [(str "jobs", VArr [])]) None]].
Proof. reflexivity. Qed.

Example getProjects_sample :
  fst (getProjects (samplePortal finishing) (str "ak_live") (initial 0))
  = Returned [PropertyOptions.mk (str "Alpha") (str "p1") None;
              PropertyOptions.mk (str "Beta") (str "p2") (Some (str "second"))].
Proof. reflexivity. Qed.
